(** * Comparative analysis core of News_Analyzer (src/communication/utils.py)

    A shallow embedding of [compare_articles], [generate_impact_analysis],
    [get_overall_sentiment] and [generate_final_sentiment_text].

    Modelling choices:
    - an article is a Python dict; each field is absent ([None]) or present,
      and a present [sentiment] or [topics] field may hold a value of the
      wrong shape, on which the source raises;
    - exceptions are values of a small error monad [result]; a Python
      [try/except Exception] is [try_except];
    - a Python [set] is a duplicate-free list; [list(s)] lists it in the
      order of the hash table, which CPython salts per process; that order
      is the parameter [it : list string -> list string] of the functions
      that list a set;
    - the float threshold [len * 0.3] and the float ratios [count / total]
      are taken as exact rationals (the comparisons against integer counts
      give the same answers for the batch sizes the program handles). *)

From Stdlib Require Import Ascii String ZArith QArith Qminmax Sorting.Sorted.
From stdpp Require Import base list gmap strings pretty.

Local Open Scope string_scope.

(** ** Exceptions *)

Inductive exn := AttributeError | TypeError.

Inductive result (A : Type) : Type :=
| Ok (a : A)
| Err (e : exn).
Arguments Ok {A} a.
Arguments Err {A} e.

#[global] Instance result_ret : MRet result := fun _ a => Ok a.
#[global] Instance result_bind : MBind result := fun _ _ k m =>
  match m with Ok a => k a | Err e => Err e end.

(** [try: m  except Exception as e: h e] *)
Definition try_except {A} (m : result A) (h : exn -> A) : A :=
  match m with Ok a => a | Err e => h e end.

(** ** Articles *)

(** The value under the key ['sentiment']: a mapping with or without a
    ['label'] key, or a value that is not a mapping (e.g. [None]), on which
    [.get] raises [AttributeError]. *)
Inductive sentiment_field :=
| SentDict (label : option string)
| SentOther.

(** The value under the key ['topics']: a list of strings, or a value that
    is neither iterable nor subscriptable (e.g. [None] or a number), on
    which [set(...)] and [[:3]] raise [TypeError]. *)
Inductive topics_field :=
| TopicsList (ts : list string)
| TopicsOther.

Record article := mkArticle {
  title : option string;
  sentiment : option sentiment_field;
  topics : option topics_field
}.

Definition no_article : article := mkArticle None None None.

(** [a.get('sentiment', {}).get('label')] *)
Definition get_label (a : article) : result (option string) :=
  match sentiment a with
  | None => mret None
  | Some (SentDict l) => mret l
  | Some SentOther => Err AttributeError
  end.

(** [a.get('sentiment', {}).get('label', 'Unknown')] *)
Definition get_label_or_unknown (a : article) : result string :=
  l ← get_label a; mret (default "Unknown" l).

(** [a.get('topics', [])] *)
Definition get_topics (a : article) : result (list string) :=
  match topics a with
  | None => mret []
  | Some (TopicsList ts) => mret ts
  | Some TopicsOther => Err TypeError
  end.

(** ['topics' in a] *)
Definition has_topics (a : article) : bool :=
  match topics a with Some _ => true | None => false end.

(** A record as the upstream analysis produces it: its [sentiment] field,
    when present, is a mapping, and its [topics] field, when present, is a
    list. *)
Definition sentiment_ok (a : article) : bool :=
  match sentiment a with Some SentOther => false | _ => true end.

Definition topics_ok (a : article) : bool :=
  match topics a with Some TopicsOther => false | _ => true end.

Definition wf_article (a : article) : bool := sentiment_ok a && topics_ok a.

(** The label and the topic list of a record, read without failure. *)
Definition label_of (a : article) : option string :=
  match sentiment a with Some (SentDict l) => l | _ => None end.

Definition topics_of (a : article) : list string :=
  match topics a with Some (TopicsList ts) => ts | _ => [] end.

Definition wf_batch (arts : list article) : bool := forallb wf_article arts.

(** ** Output records *)

Record distribution := mkDist {
  Positive : nat;
  Negative : nat;
  Neutral : nat
}.

Record coverage_difference := mkDiff {
  Comparison : string;
  Impact : string
}.

Record topic_overlap := mkOverlap {
  Common_Topics : list string;
  Unique_Topics : list (list string)
}.

Record comparative := mkComparative {
  Sentiment_Distribution : distribution;
  Coverage_Differences : list coverage_difference;
  Topic_Overlap : topic_overlap
}.

Definition default_comparative : comparative :=
  mkComparative (mkDist 0 0 0) [] (mkOverlap [] []).

(** ** Sentiment aggregation *)

(** [sum(1 for a in articles if a.get('sentiment', {}).get('label') == lab)] *)
Fixpoint count_label (lab : string) (arts : list article) : result nat :=
  match arts with
  | [] => mret 0
  | a :: r =>
      l ← get_label a;
      n ← count_label lab r;
      mret (if bool_decide (l = Some lab) then S n else n)
  end.

(** ** Topic overlap *)

(** [set(xs)]: the elements of [xs], each once. *)
Definition py_set (xs : list string) : list string := remove_dups xs.

(** [[set(a.get('topics', [])) for a in articles if 'topics' in a]] *)
Fixpoint collect_topic_sets (arts : list article) : result (list (list string)) :=
  match arts with
  | [] => mret []
  | a :: r =>
      if has_topics a then
        ts ← get_topics a;
        rest ← collect_topic_sets r;
        mret (py_set ts :: rest)
      else collect_topic_sets r
  end.

(** [set.intersection( *all_topics) if all_topics else set()] *)
Definition intersection_all (sets : list (list string)) : list string :=
  match sets with
  | [] => []
  | s :: rest =>
      foldl (fun acc t => List.filter (fun x => bool_decide (x ∈ t)) acc) s rest
  end.

(** The loop filling [topic_counts]: every topic of every set, visited in
    the set's iteration order, adds one to its entry. *)
Definition count_topics (it : list string -> list string)
    (sets : list (list string)) : gmap string nat :=
  foldl (fun m s =>
           foldl (fun m t => <[t := default 0 (m !! t) + 1]> m) m (it s))
        ∅ sets.

(** [count >= max(2, n_sets * 0.3)] *)
Definition meets_threshold (n_sets count : nat) : bool :=
  Qle_bool (Qmax (2 # 1) (inject_Z (Z.of_nat n_sets) * (3 # 10)))
           (inject_Z (Z.of_nat count)).

(** [{topic for topic, count in topic_counts.items() if count >= threshold}] *)
Definition fallback_common (it : list string -> list string)
    (sets : list (list string)) : list string :=
  map fst (List.filter (fun kv => meets_threshold (length sets) kv.2)
                       (map_to_list (count_topics it sets))).

(** [common_topics], after the fallback of
    [if not common_topics and all_topics]. *)
Definition common_topics_of (it : list string -> list string)
    (sets : list (list string)) : list string :=
  let c := intersection_all sets in
  match c, sets with
  | [], _ :: _ => fallback_common it sets
  | _, _ => c
  end.

(** [[list(topic_set - common_topics) for topic_set in all_topics]] *)
Definition unique_topics (it : list string -> list string)
    (sets : list (list string)) (common : list string) : list (list string) :=
  map (fun s => it (List.filter (fun x => negb (bool_decide (x ∈ common))) s))
      sets.

(** ** Impact analysis *)

Definition ascii_lower (c : Ascii.ascii) : Ascii.ascii :=
  let n := Ascii.nat_of_ascii c in
  if Nat.leb 65 n && Nat.leb n 90 then Ascii.ascii_of_nat (n + 32) else c.

(** [str.lower()] on ASCII text. *)
Fixpoint lower (s : string) : string :=
  match s with
  | EmptyString => EmptyString
  | String c r => String (ascii_lower c) (lower r)
  end.

Definition shared_perception : string :=
  "Both articles share similar sentiment, reinforcing the same perception.".
Definition market_uncertainty : string :=
  "The conflicting sentiment between these articles may create market uncertainty. Investors might need to evaluate both perspectives before making decisions.".
Definition multiple_interpretations : string :=
  "The contrasting views present a complex picture. This divergence suggests the company's situation has multiple interpretations.".
Definition counterbalance (other : string) : string :=
  "The " ++ lower other ++ " sentiment in one article is counterbalanced by a neutral perspective in the other.".
Definition generic_fallback : string :=
  "The articles present different aspects of the company's situation.".

Definition impact_body (article1 article2 : article) : result string :=
  sentiment1 ← get_label_or_unknown article1;
  sentiment2 ← get_label_or_unknown article2;
  mret (if bool_decide (sentiment1 = sentiment2) then shared_perception
        else if bool_decide (sentiment1 = "Positive") && bool_decide (sentiment2 = "Negative")
        then market_uncertainty
        else if bool_decide (sentiment1 = "Negative") && bool_decide (sentiment2 = "Positive")
        then multiple_interpretations
        else if bool_decide ("Neutral" ∈ [sentiment1; sentiment2]) then
          let other := if bool_decide (sentiment2 = "Neutral") then sentiment1 else sentiment2 in
          counterbalance other
        else generic_fallback).

Definition generate_impact_analysis (article1 article2 : article) : string :=
  try_except (impact_body article1 article2)
             (fun _ => "Impact analysis not available.").

(** ** Coverage differences *)

(** [range(a, b)] *)
Definition py_range (a b : nat) : list nat := seq a (b - a).

(** [', '.join(ts) if ts else 'the subject'] *)
Definition show_topics (ts : list string) : string :=
  match ts with [] => "the subject" | _ => String.concat ", " ts end.

(** [a.get('title', f'Article {i+1}')] *)
Definition title_or (a : article) (i : nat) : string :=
  default ("Article " ++ pretty (i + 1)) (title a).

(** The f-string of [comparison]. *)
Definition render_comparison (ai aj : article) (i j : nat)
    (topics_i topics_j : list string) (li lj : string) : string :=
  "Article '" ++ title_or ai i ++ "' has " ++ li ++ " sentiment about "
  ++ show_topics topics_i ++ ", while Article '" ++ title_or aj j
  ++ "' has " ++ lj ++ " sentiment about " ++ show_topics topics_j ++ ".".

Definition comparison_text (ai aj : article) (i j : nat) : result string :=
  topics_i ← get_topics ai;
  topics_j ← get_topics aj;
  li ← get_label_or_unknown ai;
  lj ← get_label_or_unknown aj;
  mret (render_comparison ai aj i j (take 3 topics_i) (take 3 topics_j) li lj).

(** The inner loop [for j in js] of the coverage scan, for a fixed [i]. *)
Fixpoint scan_j (arts : list article) (i : nat) (js : list nat)
    : result (list coverage_difference) :=
  match js with
  | [] => mret []
  | j :: js' =>
      let ai := nth i arts no_article in
      let aj := nth j arts no_article in
      li ← get_label ai;
      lj ← get_label aj;
      if bool_decide (li ≠ lj) then
        comparison ← comparison_text ai aj i j;
        rest ← scan_j arts i js';
        mret (mkDiff comparison (generate_impact_analysis ai aj) :: rest)
      else scan_j arts i js'
  end.

(** The outer loop [for i in is], with [j in range(i+1, min(i+3, len(articles)))]. *)
Fixpoint scan_i (arts : list article) (is : list nat)
    : result (list coverage_difference) :=
  match is with
  | [] => mret []
  | i :: is' =>
      d1 ← scan_j arts i (py_range (i + 1) (Nat.min (i + 3) (length arts)));
      d2 ← scan_i arts is';
      mret (d1 ++ d2)%list
  end.

(** ** [compare_articles] *)

(** The body of the [try] block. *)
Definition compare_articles_body (it : list string -> list string)
    (arts : list article) : result comparative :=
  p ← count_label "Positive" arts;
  n ← count_label "Negative" arts;
  u ← count_label "Neutral" arts;
  all_topics ← collect_topic_sets arts;
  let common := common_topics_of it all_topics in
  coverage_differences ← scan_i arts (py_range 0 (length arts));
  mret (mkComparative (mkDist p n u)
                      (take 5 coverage_differences)
                      (mkOverlap (it common) (unique_topics it all_topics common))).

Definition compare_articles (it : list string -> list string)
    (arts : list article) : comparative :=
  match arts with
  | [] => default_comparative
  | _ => try_except (compare_articles_body it arts) (fun _ => default_comparative)
  end.

(** ** Overall verdict and final text *)

(** The value under ['Sentiment Distribution']: a mapping from labels to
    integer counts (kept in insertion order), or a value whose [.values()]
    or [sum] raises (e.g. [None], or non-numeric counts). *)
Inductive dist_field :=
| DistMap (entries : list (string * Z))
| DistBad.

(** The [analysis_data] argument: [None], or a dict with or without the
    key ['Sentiment Distribution']. An empty dict and a dict without the key
    behave alike in both functions below. *)
Inductive analysis_data :=
| ANone
| ADict (sd : option dist_field).

(** [sentiment_dist.get(k, 0)] *)
Fixpoint dist_get (k : string) (es : list (string * Z)) : Z :=
  match es with
  | [] => 0
  | (k', v) :: r => if String.eqb k k' then v else dist_get k r
  end.

(** [sum(sentiment_dist.values())] *)
Definition dist_sum (es : list (string * Z)) : Z :=
  foldl (fun acc kv => (acc + kv.2)%Z) 0%Z es.

(** [analysis_data.get("Sentiment Distribution", {})], then [.values()]. *)
Definition dist_entries (sd : option dist_field) : result (list (string * Z)) :=
  match sd with
  | None => mret []
  | Some (DistMap es) => mret es
  | Some DistBad => Err AttributeError
  end.

(** [x > y] on rationals. *)
Definition Qgtb (x y : Q) : bool := negb (Qle_bool x y).

Definition overall_body (sd : option dist_field) : result string :=
  es ← dist_entries sd;
  let total := dist_sum es in
  if Z.eqb total 0 then mret "Neutral" else
  let positive_ratio := Qdiv (inject_Z (dist_get "Positive" es)) (inject_Z total) in
  let negative_ratio := Qdiv (inject_Z (dist_get "Negative" es)) (inject_Z total) in
  mret (if Qgtb positive_ratio (6 # 10) then "Very Positive"
        else if Qgtb positive_ratio (4 # 10) then "Moderately Positive"
        else if Qgtb negative_ratio (6 # 10) then "Very Negative"
        else if Qgtb negative_ratio (4 # 10) then "Moderately Negative"
        else "Mixed or Neutral").

Definition get_overall_sentiment (a : analysis_data) : string :=
  match a with
  | ANone => "Neutral"
  | ADict sd => try_except (overall_body sd) (fun _ => "Neutral")
  end.

Definition final_text_body (company_name : string) (a : analysis_data)
    (overall : string) : result string :=
  sd ← match a with ANone => Err AttributeError | ADict sd => mret sd end;
  es ← dist_entries sd;
  let total := dist_sum es in
  if Z.eqb total 0 then
    mret ("No reliable sentiment data available for " ++ company_name ++ ".")
  else
    mret (if bool_decide (overall = "Very Positive") then
            company_name ++ "'s latest news coverage is overwhelmingly positive. The company is receiving favorable attention which may indicate strong performance."
          else if bool_decide (overall = "Moderately Positive") then
            company_name ++ "'s recent news coverage leans positive. The company appears to be performing well despite some challenges."
          else if bool_decide (overall = "Very Negative") then
            company_name ++ "'s latest news coverage is predominantly negative. The company may be facing significant challenges that could impact its performance."
          else if bool_decide (overall = "Moderately Negative") then
            company_name ++ "'s recent news coverage tends to be negative. The company appears to be facing some challenges that warrant attention."
          else
            company_name ++ "'s recent news coverage shows mixed sentiment. The company has both positive developments and challenges to navigate.").

Definition inconclusive (company_name : string) : string :=
  "Analysis of " ++ company_name ++ "'s recent news coverage is inconclusive.".

Definition generate_final_sentiment_text (company_name : string)
    (a : analysis_data) : string :=
  let overall := get_overall_sentiment a in
  try_except (final_text_body company_name a overall)
             (fun _ => inconclusive company_name).

(** The dict [compare_articles] returns, seen as [analysis_data]. *)
Definition analysis_of (c : comparative) : analysis_data :=
  let d := Sentiment_Distribution c in
  ADict (Some (DistMap [("Positive", Z.of_nat (Positive d));
                        ("Negative", Z.of_nat (Negative d));
                        ("Neutral", Z.of_nat (Neutral d))])).

Definition dist3 (p n u : Z) : analysis_data :=
  ADict (Some (DistMap [("Positive", p); ("Negative", n); ("Neutral", u)])).

(** ** Specifications written from the spec's words *)

(** The label of 4.4, [Unknown] when absent. *)
Definition resolved_label (a : article) : string := default "Unknown" (label_of a).

(** The decision table of 4.4, first match wins. *)
Definition impact_table (s1 s2 : string) : string :=
  if String.eqb s1 s2 then shared_perception
  else if String.eqb s1 "Positive" && String.eqb s2 "Negative" then market_uncertainty
  else if String.eqb s1 "Negative" && String.eqb s2 "Positive" then multiple_interpretations
  else if String.eqb s1 "Neutral" then counterbalance s2
  else if String.eqb s2 "Neutral" then counterbalance s1
  else generic_fallback.

(** The verdict of 4.5 for counts [p n u] with [t = p + n + u > 0]:
    [p / t > 0.6] is [3 t < 5 p], [p / t > 0.4] is [2 t < 5 p]. *)
Definition verdict_spec (p n u : Z) : string :=
  let t := (p + n + u)%Z in
  if (3 * t <? 5 * p)%Z then "Very Positive"
  else if (2 * t <? 5 * p)%Z then "Moderately Positive"
  else if (3 * t <? 5 * n)%Z then "Very Negative"
  else if (2 * t <? 5 * n)%Z then "Moderately Negative"
  else "Mixed or Neutral".

Definition five_verdicts : list string :=
  ["Very Positive"; "Moderately Positive"; "Very Negative";
   "Moderately Negative"; "Mixed or Neutral"].

(** The [Sentiment Distribution] entry an [analysis_data] carries. *)
Definition dist_of (a : analysis_data) : option dist_field :=
  match a with ANone => None | ADict sd => sd end.

(** The look-ahead pairs of 4.3: for each index [i < N], the indices
    [j = i+1] and [j = i+2] that are below [N], in increasing index order. *)
Definition window_pairs (N : nat) : list (nat * nat) :=
  flat_map (fun i => map (pair i) (List.filter (fun j => Nat.ltb j N) [i + 1; i + 2]))
           (seq 0 N).

(** Strict lexicographic order on index pairs. *)
Definition pair_lt (x y : nat * nat) : Prop :=
  x.1 < y.1 \/ (x.1 = y.1 /\ x.2 < y.2).

(** The two labels, as the loop reads them ([None] when absent), differ. *)
Definition labels_differ (arts : list article) (ij : nat * nat) : bool :=
  negb (bool_decide (label_of (nth ij.1 arts no_article) = label_of (nth ij.2 arts no_article))).

(** The entry the loop emits for the pair [(i, j)]. *)
Definition coverage_entry (arts : list article) (ij : nat * nat) : coverage_difference :=
  let ai := nth ij.1 arts no_article in
  let aj := nth ij.2 arts no_article in
  mkDiff (render_comparison ai aj ij.1 ij.2 (take 3 (topics_of ai)) (take 3 (topics_of aj))
                            (resolved_label ai) (resolved_label aj))
         (generate_impact_analysis ai aj).


(** What CPython guarantees of [list(s)] for a set [s]: each element once,
    in some order. *)
Definition set_iter_ok (it : list string -> list string) : Prop :=
  forall s : list string, NoDup s -> it s ≡ₚ s.

(** The topic-bearing records (those with a ['topics'] key), in input order. *)
Definition topic_bearing (arts : list article) : list article :=
  List.filter has_topics arts.

(** The topic sets of the topic-bearing records, in input order. *)
Definition topic_sets (arts : list article) : list (list string) :=
  map (fun a => py_set (topics_of a)) (topic_bearing arts).

(** The number of topic-bearing records whose topics contain [t]. *)
Definition topic_freq (t : string) (arts : list article) : nat :=
  length (List.filter (fun a => bool_decide (t ∈ topics_of a)) (topic_bearing arts)).

(** [max(2, ceil(0.3 * n))] *)
Definition spec_threshold (n : nat) : nat := Nat.max 2 ((3 * n + 9) / 10).

(** The number of sets that contain [t]. *)
Definition freq_sets (t : string) (sets : list (list string)) : nat :=
  length (List.filter (fun s => bool_decide (t ∈ s)) sets).

(** A counter entry after [k] more increments. *)
Definition opt_add (o : option nat) (k : nat) : option nat :=
  match o, k with
  | None, 0 => None
  | _, _ => Some (default 0 o + k)
  end.

(** The result of [compare_articles] on a non-empty batch without error. *)
Definition compare_spec (it : list string -> list string) (arts : list article) : comparative :=
  let sets := topic_sets arts in
  let common := common_topics_of it sets in
  mkComparative
    (mkDist (length (List.filter (fun a => bool_decide (label_of a = Some "Positive")) arts))
            (length (List.filter (fun a => bool_decide (label_of a = Some "Negative")) arts))
            (length (List.filter (fun a => bool_decide (label_of a = Some "Neutral")) arts)))
    (take 5 (map (coverage_entry arts) (List.filter (labels_differ arts) (window_pairs (length arts)))))
    (mkOverlap (it common) (unique_topics it sets common)).

(** The labels the aggregator counts. *)
Definition counted_labels : list (option string) :=
  [Some "Positive"; Some "Negative"; Some "Neutral"].

(** ** Example batches *)

(** A record with a sentiment label and a topic list. *)
Definition art (l : option string) (ts : option (list string)) : article :=
  mkArticle None (Some (SentDict l)) (option_map TopicsList ts).

(** Scenario 1 of the spec. *)
Definition batch_two : list article :=
  [art (Some "Positive") (Some ["A"; "B"]); art (Some "Negative") (Some ["A"; "C"])].

(** Scenario 6 of the spec: five topic sets with no common topic, ["X"] in
    three of them, and one record without a [topics] key. *)
Definition batch_fallback : list article :=
  [art (Some "Positive") (Some ["X"; "A"]); art (Some "Negative") (Some ["X"; "B"]);
   art (Some "Neutral") (Some ["X"; "C"]); art (Some "Positive") None;
   art (Some "Negative") (Some ["D"]); art None (Some ["E"; "A"])].

(** Two records whose topics are not shared. *)
Definition batch_disjoint : list article :=
  [art (Some "Positive") (Some ["A"; "B"]); art (Some "Negative") (Some ["C"])].

(** A record whose label is none of the three counted ones. *)
Definition batch_mixed : list article := [art (Some "Mixed") None].

(** A record whose [sentiment] value is not a mapping. *)
Definition batch_malformed : list article :=
  [art (Some "Positive") (Some ["A"]); mkArticle (Some "t") (Some SentOther) None].

(** A record without a [sentiment] key next to one labelled ["Unknown"]. *)
Definition batch_missing_unknown : list article :=
  [mkArticle None None None; art (Some "Unknown") None].

(** * Text processing, news feeds and the analysis endpoint

    The other functions of src/communication/utils.py, and the handler
    [analyze_articles] of src/api.py that chains them with
    [compare_articles]. The network, the HTML parser and the language
    models are parameters. Where the code catches every exception, the type
    of an exception does not matter, and a raising call is [None] of an
    [option]. *)

(** ** Python strings as code points *)

(** A Python [str] as the list of its code points; [len] is [length]. *)
Definition pystr : Type := list N.

(** [ch.isspace()] (Python 3.11); [\s] in a [str] pattern and
    [str.strip()] use the same set. *)
Definition py_isspace (c : N) : bool :=
  (N.leb 9 c && N.leb c 13) || (N.leb 28 c && N.leb c 32) ||
  N.eqb c 133 || N.eqb c 160 || N.eqb c 5760 ||
  (N.leb 8192 c && N.leb c 8202) || N.eqb c 8232 || N.eqb c 8233 ||
  N.eqb c 8239 || N.eqb c 8287 || N.eqb c 12288.

(** [re.sub(r'\s+', ' ', s)]: the scan replaces each maximal run of
    whitespace by one space; [in_run] says the code point before was part
    of a run. *)
Fixpoint sub_ws (in_run : bool) (s : pystr) : pystr :=
  match s with
  | [] => []
  | c :: r =>
      if py_isspace c then
        (if in_run then sub_ws true r else 32%N :: sub_ws true r)
      else c :: sub_ws false r
  end.

(** [s.lstrip()] *)
Fixpoint lstrip (s : pystr) : pystr :=
  match s with
  | [] => []
  | c :: r => if py_isspace c then lstrip r else s
  end.

(** [s.strip()]: [lstrip], then the same from the right. *)
Definition strip (s : pystr) : pystr := rev (lstrip (rev (lstrip s))).

(** [sanitize_text(text)] on a [str]. *)
Definition sanitize_text (text : pystr) : pystr :=
  match text with
  | [] => []
  | _ => strip (sub_ws false text)
  end.

(** [sep.join(xs)] *)
Fixpoint py_join (sep : pystr) (xs : list pystr) : pystr :=
  match xs with
  | [] => []
  | [x] => x
  | x :: r => (x ++ sep ++ py_join sep r)%list
  end.

(** [xs[:k]] for an integer [k]; a negative [k] counts from the end. *)
Definition py_slice_to {A} (xs : list A) (k : Z) : list A :=
  take (Z.to_nat (if (k <? 0)%Z then (Z.of_nat (length xs) + k)%Z else k)) xs.

(** [xs[i:j]] for [0 <= i <= j]. *)
Definition py_slice {A} (xs : list A) (i j : nat) : list A := take (j - i) (drop i xs).

(** [range(start, stop, step)] for [step > 0]: the values [start + k * step]
    for [k = 0, 1, ...] while they stay below [stop]. *)
Definition py_range_step (start stop step : nat) : list nat :=
  map (fun k => start + k * step) (seq 0 ((stop - start + step - 1) / step)).

(** ** News feeds *)

(** The bytes [urllib.parse.quote] keeps: ASCII letters and digits,
    ['_.-~'], and ['/'] (its default [safe]). *)
Definition quote_safe (c : Ascii.ascii) : bool :=
  let n := Ascii.nat_of_ascii c in
  (Nat.leb 65 n && Nat.leb n 90) || (Nat.leb 97 n && Nat.leb n 122) ||
  (Nat.leb 48 n && Nat.leb n 57) ||
  Nat.eqb n 95 || Nat.eqb n 46 || Nat.eqb n 45 || Nat.eqb n 126 || Nat.eqb n 47.

(** An upper-case hexadecimal digit, for [n < 16]. *)
Definition hex_digit (n : nat) : Ascii.ascii :=
  Ascii.ascii_of_nat (if Nat.ltb n 10 then 48 + n else 55 + n).

(** [urllib.parse.quote(s)] on the UTF-8 bytes of [s]: a byte outside the
    safe set becomes [%XY]. *)
Fixpoint quote (s : string) : string :=
  match s with
  | EmptyString => EmptyString
  | String c r =>
      if quote_safe c then String c (quote r)
      else String "%"%char (String (hex_digit (Ascii.nat_of_ascii c / 16))
                              (String (hex_digit (Ascii.nat_of_ascii c mod 16)) (quote r)))
  end.

(** [template.format(query=q)] for a template whose only replacement field
    is [{query}], as both templates of [NEWS_SOURCES] are. *)
Fixpoint format_query (template q : string) : string :=
  match template with
  | String "{"%char (String "q"%char (String "u"%char (String "e"%char
      (String "r"%char (String "y"%char (String "}"%char r)))))) =>
      q ++ format_query r q
  | String c r => String c (format_query r q)
  | EmptyString => EmptyString
  end.

(** A feed entry: its attributes [title], [link] and [published], [None]
    when the entry lacks one. *)
Record feed_entry := mkEntry {
  entry_title : option string;
  entry_link : option string;
  entry_published : option string
}.

(** The dict appended for an entry. *)
Record news_item := mkItem {
  item_title : string;
  item_url : string;
  item_published : string
}.

Definition NEWS_SOURCES : list (string * string) :=
  [("google_news", "https://news.google.com/rss/search?q={query}");
   ("bing_news", "https://www.bing.com/news/search?q={query}&format=rss")].

Section Feeds.

(** [feedparser.parse(url).entries] ([None] when it raises), and the
    string [datetime.now().strftime('%Y-%m-%d')]. *)
Context (parse : string -> option (list feed_entry)) (now : string).

(** The loop [for entry in ...: articles.append({...})]. Reading
    [entry.title] or [entry.link] on an entry without it raises, which ends
    the loop; what was appended before stays in [articles]. *)
Fixpoint append_entries (articles : list news_item) (es : list feed_entry) : list news_item :=
  match es with
  | [] => articles
  | e :: r =>
      match entry_title e, entry_link e with
      | Some t, Some l =>
          append_entries (articles ++ [mkItem t l (default now (entry_published e))])%list r
      | _, _ => articles
      end
  end.

(** The loop over [NEWS_SOURCES.items()], each iteration in its own [try]. *)
Fixpoint fetch_sources (query : string) (num_results : Z)
    (sources : list (string * string)) (articles : list news_item) : list news_item :=
  match sources with
  | [] => articles
  | (_, url_template) :: rest =>
      let feed_url := format_query url_template (quote query) in
      let articles' :=
        match parse feed_url with
        | None => articles
        | Some entries => append_entries articles (py_slice_to entries (Z.div num_results 2))
        end in
      fetch_sources query num_results rest articles'
  end.

Definition fetch_news_feeds (query : string) (num_results : Z) : list news_item :=
  fetch_sources query num_results NEWS_SOURCES [].

Definition search_news_articles (company_name : string) (num_articles : Z) : list news_item :=
  py_slice_to (fetch_news_feeds company_name num_articles) num_articles.

(** The items of a list of entries, up to the first entry without [title]
    or [link]. *)
Fixpoint items_until_incomplete (es : list feed_entry) : list news_item :=
  match es with
  | [] => []
  | e :: r =>
      match entry_title e, entry_link e with
      | Some t, Some l => mkItem t l (default now (entry_published e)) :: items_until_incomplete r
      | _, _ => []
      end
  end.

(** What one source contributes: nothing when its feed raises, else the
    items of its first [num_results // 2] entries up to the first
    incomplete one. *)
Definition source_items (query : string) (num_results : Z) (url_template : string)
    : list news_item :=
  match parse (format_query url_template (quote query)) with
  | None => []
  | Some entries => items_until_incomplete (py_slice_to entries (Z.div num_results 2))
  end.

End Feeds.

(** ** Summaries *)

Section Summarize.

(** [pipeline("summarization", ...)] ([None] when loading raises), whose
    value maps [(text, max_length, min_length)] to
    [summarizer(text, ...)[0]['summary_text']] ([None] when that raises);
    and [nltk.sent_tokenize] ([None] when it raises, e.g. without the
    punkt data). *)
Context (load_summarizer : option (pystr -> Z -> Z -> option pystr))
        (sent_tokenize : pystr -> option (list pystr)).

(** [[text[i:i+1024] for i in range(0, len(text), 1024)]] *)
Definition text_chunks (text : pystr) : list pystr :=
  map (fun i => py_slice text i (i + 1024)) (py_range_step 0 (length text) 1024).

(** The body of the [try] block. *)
Definition summarize_body (text : pystr) (max_length : Z) : option pystr :=
  summarizer ← load_summarizer;
  if Nat.ltb 1024 (length text) then
    let chunks := text_chunks text in
    summaries ← mapM (fun chunk =>
                        summarizer chunk
                          (Z.div max_length (Z.of_nat (length (take 3 chunks)))) 30%Z)
                     (take 3 chunks);
    mret (py_join [32%N] summaries)
  else summarizer text max_length 50%Z.

(** [summarize_text(text, max_length)] on a [str]; [None] when the
    fallback's [sent_tokenize] raises, which the function does not catch. *)
Definition summarize_text (text : pystr) (max_length : Z) : option pystr :=
  if Nat.ltb (length text) 100 then Some text
  else match summarize_body text max_length with
       | Some s => Some s
       | None =>
           sentences ← sent_tokenize text;
           mret (match sentences with
                 | [] => text
                 | _ => py_join [32%N] (take 3 sentences)
                 end)
       end.

End Summarize.

(** ** Sentiment of one text *)

(** The dict [analyze_sentiment] returns: ['label'], ['score'], and
    ['vader_score'] and ['transformer_score'] when present. *)
Record sentiment_result (F : Type) := mkSentiment {
  s_label : string;
  s_score : F;
  s_vader_score : option F;
  s_transformer_score : option F
}.
Arguments mkSentiment {F} s_label s_score s_vader_score s_transformer_score.
Arguments s_label {F} s.
Arguments s_score {F} s.
Arguments s_vader_score {F} s.
Arguments s_transformer_score {F} s.

Section Sentiment.

(** Python floats, the operations the function applies to them ([+], [*],
    unary [-], [>]) and the literals [0.0], [0.4], [0.6], [0.1], [0.05]. *)
Context {F : Type} (fadd fmul : F -> F -> F) (fneg : F -> F) (fgt : F -> F -> bool)
        (f0_0 f0_4 f0_6 f0_1 f0_05 : F).

(** [SentimentIntensityAnalyzer().polarity_scores(text)['compound']], and
    [pipeline("sentiment-analysis", ...)(text)[0]] read as its ['label']
    and ['score']; [None] when they raise. *)
Context (vader_compound : pystr -> option F) (classify : pystr -> option (string * F)).

(** The body of the first [try] block. *)
Definition analyze_body (text : pystr) : option (sentiment_result F) :=
  compound ← vader_compound text;
  transformer_result ← classify (take 512 text);
  let transformer_score :=
    if String.eqb transformer_result.1 "NEGATIVE" then fneg transformer_result.2
    else transformer_result.2 in
  let final_score := fadd (fmul f0_4 compound) (fmul f0_6 transformer_score) in
  let label :=
    if fgt final_score f0_1 then "Positive"
    else if fgt (fneg f0_1) final_score then "Negative"
    else "Neutral" in
  mret (mkSentiment label final_score (Some compound) (Some transformer_score)).

(** The handler: VADER alone, and ["Neutral"] with [0.0] when it raises
    too. *)
Definition vader_only (text : pystr) : sentiment_result F :=
  match vader_compound text with
  | Some compound =>
      if fgt compound f0_05 then mkSentiment "Positive" compound None None
      else if fgt (fneg f0_05) compound then mkSentiment "Negative" compound None None
      else mkSentiment "Neutral" compound None None
  | None => mkSentiment "Neutral" f0_0 None None
  end.

Definition analyze_sentiment (text : pystr) : sentiment_result F :=
  match text with
  | [] => mkSentiment "Neutral" f0_0 None None
  | _ => match analyze_body text with Some r => r | None => vader_only text end
  end.

End Sentiment.

(** ** Topics of one text *)

Definition ENTITY_LABELS : list string :=
  ["ORG"; "PRODUCT"; "PERSON"; "GPE"; "LOC"; "MONEY"; "PERCENT"].

(** Inserts [x] into a list sorted by decreasing score, after the items
    whose score is not below its own. *)
Fixpoint insert_desc (x : string * Q) (l : list (string * Q)) : list (string * Q) :=
  match l with
  | [] => [x]
  | y :: r => if Qgtb x.2 y.2 then x :: l else y :: insert_desc x r
  end.

(** [sorted(items, key=lambda x: x[1], reverse=True)]: a stable sort, so
    items of equal score keep their order. *)
Definition sort_desc (l : list (string * Q)) : list (string * Q) :=
  foldl (fun acc x => insert_desc x acc) [] l.

(** [d[k] = v] on a dict kept in insertion order. *)
Fixpoint dict_set (k : string) (v : Q) (d : list (string * Q)) : list (string * Q) :=
  match d with
  | [] => [(k, v)]
  | (k', v') :: r => if String.eqb k k' then (k, v) :: r else (k', v') :: dict_set k v r
  end.

(** [{k: v for k, v in pairs}] *)
Definition dict_of_pairs (pairs : list (string * Q)) : list (string * Q) :=
  foldl (fun d kv => dict_set kv.1 kv.2 d) [] pairs.

Section Topics.

(** The set iteration order (as for [compare_articles]); the pairs
    [(ent.text, ent.label_)] of [nlp(text).ents]; the loading of
    [stopwords.words('english')]; and the pairs [(feature_names[i],
    scores[i])] of the TF-IDF vectorizer fitted on [[text]]. [None] when
    they raise. Scores are finite floats, compared exactly. *)
Context (it : list string -> list string)
        (ner : pystr -> option (list (string * string)))
        (stopwords_english : option unit)
        (tfidf : pystr -> option (list (string * Q))).

(** The inner [try] block: the [num_topics] best-scored features, or [[]]
    when it raises. *)
Definition keywords_of (text : pystr) (num_topics : Z) : list string :=
  match tfidf text with
  | Some pairs => map fst (py_slice_to (sort_desc (dict_of_pairs pairs)) num_topics)
  | None => []
  end.

(** The body of the outer [try] block. *)
Definition topics_body (text : pystr) (num_topics : Z) : option (list string) :=
  ents ← ner (take 5000 text);
  let entities := map fst (List.filter (fun e => bool_decide (e.2 ∈ ENTITY_LABELS)) ents) in
  _ ← stopwords_english;
  let keywords := keywords_of text num_topics in
  let combined := it (py_set (entities ++ keywords)%list) in
  mret (py_slice_to combined num_topics).

Definition extract_topics (text : pystr) (num_topics : Z) : list string :=
  if Nat.ltb (length text) 100 then ["Not enough content"]
  else match topics_body text num_topics with
       | Some ts => ts
       | None => ["Topic extraction failed"]
       end.

End Topics.

(** ** The analysis endpoint (src/api.py) *)

(** An article of the request: its ['title'] ([None] when the key is
    absent) and its ['content'] ([None] when absent or [null]). *)
Record api_article := mkApiArticle {
  in_title : option string;
  in_content : option pystr
}.

(** The response: 400 without articles, 500 when the handler raises, and
    the results with the comparative analysis and the final text. *)
Inductive api_response :=
| Respond400
| Respond500
| Respond200 (results : list article) (comp : comparative) (final : string).

Section Api.

Context {F : Type} (fadd fmul : F -> F -> F) (fneg : F -> F) (fgt : F -> F -> bool)
        (f0_0 f0_4 f0_6 f0_1 f0_05 : F)
        (vader_compound : pystr -> option F) (classify : pystr -> option (string * F))
        (load_summarizer : option (pystr -> Z -> Z -> option pystr))
        (sent_tokenize : pystr -> option (list pystr))
        (it : list string -> list string)
        (ner : pystr -> option (list (string * string)))
        (stopwords_english : option unit)
        (tfidf : pystr -> option (list (string * Q))).

(** One iteration of the loop over [data['articles']]: [None] when it
    raises, [Some None] when it skips the article. The record keeps the
    fields [compare_articles] reads: title, sentiment and topics. *)
Definition analyze_one (a : api_article) : option (option article) :=
  match in_content a with
  | None => mret None
  | Some content =>
      if Nat.ltb (length content) 100 then mret None
      else
        _ ← summarize_text load_summarizer sent_tokenize content 150;
        let sentiment := analyze_sentiment fadd fmul fneg fgt f0_0 f0_4 f0_6 f0_1 f0_05
                                           vader_compound classify content in
        let topics := extract_topics it ner stopwords_english tfidf content 5 in
        title ← in_title a;
        mret (Some (mkArticle (Some title) (Some (SentDict (Some (s_label sentiment))))
                              (Some (TopicsList topics))))
  end.

(** [analyze_articles()] for a request whose body is [None] or lacks
    ['articles'] ([data = None]), or carries a list of articles. *)
Definition analyze_articles (data : option (list api_article)) (company : option string)
    : api_response :=
  match data with
  | None => Respond400
  | Some articles =>
      match mapM analyze_one articles with
      | None => Respond500
      | Some rs =>
          let results := omap id rs in
          let comp := compare_articles it results in
          let final := generate_final_sentiment_text (default "" company) (analysis_of comp) in
          Respond200 results comp final
      end
  end.

End Api.

(** The final text when no count is positive. *)
Definition no_data_text (company_name : string) : string :=
  "No reliable sentiment data available for " ++ company_name ++ ".".

(** ** Reading well-formed records *)

Lemma get_label_ok (a : article) :
  sentiment_ok a = true -> get_label a = Ok (label_of a).
Proof.
  unfold sentiment_ok, get_label, label_of.
  destruct (sentiment a) as [[l|]|]; easy.
Qed.

Lemma get_label_or_unknown_ok (a : article) :
  sentiment_ok a = true -> get_label_or_unknown a = Ok (resolved_label a).
Proof.
  intros H. unfold get_label_or_unknown. rewrite (get_label_ok a H). reflexivity.
Qed.

Lemma get_topics_ok (a : article) :
  topics_ok a = true -> get_topics a = Ok (topics_of a).
Proof.
  unfold topics_ok, get_topics, topics_of.
  destruct (topics a) as [[ts|]|]; easy.
Qed.

Lemma wf_article_split (a : article) :
  wf_article a = true -> sentiment_ok a = true /\ topics_ok a = true.
Proof. unfold wf_article. apply andb_prop. Qed.

Lemma wf_batch_nth (arts : list article) (i : nat) :
  wf_batch arts = true -> wf_article (nth i arts no_article) = true.
Proof.
  intros H. destruct (Nat.lt_ge_cases i (length arts)) as [Hi|Hi].
  - unfold wf_batch in H. rewrite forallb_forall in H.
    apply H. apply nth_In. exact Hi.
  - rewrite nth_overflow by exact Hi. reflexivity.
Qed.

(** ** Ratios *)

Lemma Qgtb_ratio (p : Z) (tp : positive) (a : Z) (b : positive) :
  Qgtb (Qdiv (inject_Z p) (inject_Z (Zpos tp))) (a # b) = (a * Zpos tp <? p * Zpos b)%Z.
Proof.
  unfold Qgtb, Qle_bool, Qdiv, Qmult, Qinv, inject_Z. simpl.
  change (1 * tp)%positive with tp. rewrite Z.mul_1_r.
  destruct (Z.leb_spec (p * Zpos b) (a * Zpos tp)), (Z.ltb_spec (a * Zpos tp) (p * Zpos b));
    simpl; lia.
Qed.

(** ** Impact analysis *)

(** C3: on two records whose [sentiment] fields are absent or mappings,
    [generate_impact_analysis] returns the narrative of the first-match
    decision table over the two resolved labels: equal labels give the
    shared-perception string, (Positive, Negative) the market-uncertainty
    narrative, (Negative, Positive) the multiple-interpretations narrative,
    an unequal pair with a Neutral side the counterbalance sentence over the
    other label lower-cased, and anything else the generic fallback. *)
Theorem generate_impact_analysis_table (a1 a2 : article)
    (H1 : sentiment_ok a1 = true) (H2 : sentiment_ok a2 = true) :
  generate_impact_analysis a1 a2 = impact_table (resolved_label a1) (resolved_label a2).
Proof.
  unfold generate_impact_analysis, impact_body.
  rewrite (get_label_or_unknown_ok a1 H1), (get_label_or_unknown_ok a2 H2).
  cbn [mbind result_bind mret result_ret try_except].
  generalize (resolved_label a1) (resolved_label a2). intros s1 s2.
  unfold impact_table.
  repeat match goal with
         | |- context [String.eqb ?x ?y] => destruct (String.eqb_spec x y)
         | |- context [bool_decide ?P] => case_bool_decide
         end; simpl; subst; try congruence; set_solver.
Qed.

(** ** Overall verdict *)

Lemma overall_dist3 (p n u : Z) (tp : positive) :
  (p + n + u)%Z = Zpos tp ->
  get_overall_sentiment (dist3 p n u) =
    if (6 * Zpos tp <? p * 10)%Z then "Very Positive"
    else if (4 * Zpos tp <? p * 10)%Z then "Moderately Positive"
    else if (6 * Zpos tp <? n * 10)%Z then "Very Negative"
    else if (4 * Zpos tp <? n * 10)%Z then "Moderately Negative"
    else "Mixed or Neutral".
Proof.
  intros Ht.
  unfold get_overall_sentiment, dist3, overall_body, dist_entries.
  cbn [mbind result_bind mret result_ret try_except].
  unfold dist_sum. simpl foldl. cbn [snd].
  replace (0 + p + n + u)%Z with (Zpos tp) by lia.
  simpl dist_get. cbn zeta.
  rewrite !Qgtb_ratio. reflexivity.
Qed.

(** C4: for a distribution [{Positive: p, Negative: n, Neutral: u}] with
    [total = p + n + u > 0], [get_overall_sentiment] returns the verdict of
    the strict thresholds tried in order (positive ratio above 0.6, above
    0.4, negative ratio above 0.6, above 0.4, else Mixed or Neutral); a ratio
    exactly 0.6 or 0.4 does not take its branch. *)
Theorem get_overall_sentiment_thresholds (p n u : Z) (Ht : (0 < p + n + u)%Z) :
  let t := (p + n + u)%Z in
  get_overall_sentiment (dist3 p n u) = verdict_spec p n u /\
  ((5 * p = 3 * t)%Z -> get_overall_sentiment (dist3 p n u) <> "Very Positive") /\
  ((5 * p = 2 * t)%Z -> get_overall_sentiment (dist3 p n u) <> "Very Positive" /\
                        get_overall_sentiment (dist3 p n u) <> "Moderately Positive") /\
  ((5 * n = 3 * t)%Z -> get_overall_sentiment (dist3 p n u) <> "Very Negative") /\
  ((5 * n = 2 * t)%Z -> get_overall_sentiment (dist3 p n u) <> "Very Negative" /\
                        get_overall_sentiment (dist3 p n u) <> "Moderately Negative").
Proof.
  intros t.
  destruct (p + n + u)%Z as [|tp|tp] eqn:E; try lia.
  rewrite (overall_dist3 p n u tp E).
  unfold verdict_spec. cbv zeta. rewrite E. subst t.
  repeat match goal with
         | |- context [Z.ltb ?x ?y] => destruct (Z.ltb_spec x y)
         end;
    repeat split; intros; try discriminate; try lia; reflexivity.
Qed.

(** C7 (as the code has it): [get_overall_sentiment] returns one of the five
    verdicts or ["Neutral"]. It returns ["Neutral"] exactly when there is no
    analysis data ([None]), when reading the distribution raises, or when
    the values of the distribution sum to 0 (an empty or absent
    distribution included); in particular for three counts summing to 0.
    It depends on nothing but the [Sentiment Distribution] entry. *)
Theorem get_overall_sentiment_range (a : analysis_data) :
  In (get_overall_sentiment a) ("Neutral" :: five_verdicts) /\
  (get_overall_sentiment a = "Neutral" <->
   a = ANone \/
   exists sd, a = ADict sd /\
     ((exists e, dist_entries sd = Err e) \/
      (exists es, dist_entries sd = Ok es /\ dist_sum es = 0%Z))) /\
  (forall p n u : Z, (p + n + u)%Z = 0%Z -> get_overall_sentiment (dist3 p n u) = "Neutral") /\
  get_overall_sentiment a = get_overall_sentiment (ADict (dist_of a)).
Proof.
  split; [|split; [|split]].
  - destruct a as [|sd]; simpl; [tauto|].
    unfold overall_body.
    destruct (dist_entries sd) as [es|e]; simpl; [|tauto].
    destruct (Z.eqb (dist_sum es) 0); simpl; [tauto|].
    repeat match goal with |- context [if ?b then _ else _] => destruct b end;
      simpl; tauto.
  - split.
    + destruct a as [|sd]; [intros; left; reflexivity|].
      intros H. right. exists sd. split; [reflexivity|].
      unfold get_overall_sentiment, try_except, overall_body in H.
      destruct (dist_entries sd) as [es|e]; [|left; exists e; reflexivity].
      right. exists es. split; [reflexivity|].
      cbn [mbind result_bind] in H. cbv zeta in H.
      destruct (Z.eqb_spec (dist_sum es) 0) as [E|E]; [exact E|].
      cbn [mret result_ret] in H.
      repeat match goal with H : context [if ?b then _ else _] |- _ => destruct b end;
        discriminate H.
    + intros [->|[sd [-> [[e Ee]|[es [Ees Es]]]]]]; [reflexivity| |].
      * unfold get_overall_sentiment, try_except, overall_body. rewrite Ee. reflexivity.
      * unfold get_overall_sentiment, try_except, overall_body. rewrite Ees.
        cbn [mbind result_bind]. cbv zeta. rewrite Es. reflexivity.
  - intros p n u E. unfold get_overall_sentiment, try_except, overall_body, dist3.
    cbn [dist_entries mbind result_bind mret result_ret]. cbv zeta.
    replace (dist_sum [("Positive", p); ("Negative", n); ("Neutral", u)]) with 0%Z
      by (unfold dist_sum; simpl; lia).
    reflexivity.
  - destruct a as [|sd]; simpl; [|reflexivity].
    reflexivity.
Qed.

(** C7 refuted: a distribution with no article ([total == 0]) gives
    ["Neutral"], which is not one of the five verdicts. *)
Lemma get_overall_sentiment_not_five :
  get_overall_sentiment (dist3 0 0 0) = "Neutral" /\ ~ In "Neutral" five_verdicts.
Proof. split; [vm_compute; reflexivity|simpl; intuition discriminate]. Qed.

(** ** Compare articles on well-formed batches *)

Lemma count_label_ok (lab : string) (arts : list article) :
  wf_batch arts = true ->
  count_label lab arts = Ok (length (List.filter (fun a => bool_decide (label_of a = Some lab)) arts)).
Proof.
  induction arts as [|a r IH]; intros Hwf; [reflexivity|].
  simpl in Hwf. apply andb_prop in Hwf as [Ha Hr].
  apply wf_article_split in Ha as [Hs _].
  simpl. rewrite (get_label_ok a Hs). cbn [mbind result_bind mret result_ret].
  rewrite (IH Hr). cbn [mbind result_bind mret result_ret].
  case_bool_decide; reflexivity.
Qed.

Lemma collect_topic_sets_ok (arts : list article) :
  wf_batch arts = true -> collect_topic_sets arts = Ok (topic_sets arts).
Proof.
  unfold topic_sets.
  induction arts as [|a r IH]; intros Hwf; [reflexivity|].
  simpl in Hwf. apply andb_prop in Hwf as [Ha Hr].
  apply wf_article_split in Ha as [_ Ht].
  simpl. destruct (has_topics a); [|exact (IH Hr)].
  rewrite (get_topics_ok a Ht). cbn [mbind result_bind mret result_ret].
  rewrite (IH Hr). reflexivity.
Qed.

Lemma comparison_text_ok (ai aj : article) (i j : nat) :
  wf_article ai = true -> wf_article aj = true ->
  comparison_text ai aj i j =
    Ok (render_comparison ai aj i j (take 3 (topics_of ai)) (take 3 (topics_of aj))
                          (resolved_label ai) (resolved_label aj)).
Proof.
  intros [Hsi Hti]%wf_article_split [Hsj Htj]%wf_article_split.
  unfold comparison_text.
  rewrite (get_topics_ok ai Hti), (get_topics_ok aj Htj),
          (get_label_or_unknown_ok ai Hsi), (get_label_or_unknown_ok aj Hsj).
  reflexivity.
Qed.

Lemma scan_j_ok (arts : list article) (i : nat) (js : list nat) :
  wf_batch arts = true ->
  scan_j arts i js =
    Ok (map (coverage_entry arts) (List.filter (labels_differ arts) (map (pair i) js))).
Proof.
  intros Hwf.
  pose proof (wf_batch_nth arts i Hwf) as Hi.
  pose proof (proj1 (wf_article_split _ Hi)) as Hsi.
  induction js as [|j js IH]; [reflexivity|].
  pose proof (wf_batch_nth arts j Hwf) as Hj.
  pose proof (proj1 (wf_article_split _ Hj)) as Hsj.
  simpl. rewrite (get_label_ok _ Hsi), (get_label_ok _ Hsj).
  cbn [mbind result_bind mret result_ret].
  unfold labels_differ at 1. simpl fst. simpl snd.
  case_bool_decide as Hne; case_bool_decide as Heq; try congruence; simpl.
  - rewrite (comparison_text_ok _ _ i j Hi Hj). cbn [mbind result_bind mret result_ret].
    rewrite IH. reflexivity.
  - exact IH.
Qed.

Lemma scan_i_ok (arts : list article) (is : list nat) :
  wf_batch arts = true ->
  scan_i arts is =
    Ok (map (coverage_entry arts)
            (List.filter (labels_differ arts)
               (flat_map (fun i => map (pair i) (py_range (i + 1) (Nat.min (i + 3) (length arts)))) is))).
Proof.
  intros Hwf. induction is as [|i is IH]; [reflexivity|].
  simpl. rewrite (scan_j_ok arts i _ Hwf). cbn [mbind result_bind mret result_ret].
  rewrite IH. cbn [mbind result_bind mret result_ret].
  rewrite List.filter_app, map_app. reflexivity.
Qed.

Lemma py_range_window (i N : nat) :
  py_range (i + 1) (Nat.min (i + 3) N) = List.filter (fun j => Nat.ltb j N) [i + 1; i + 2].
Proof.
  unfold py_range.
  destruct (Nat.le_gt_cases N (i + 1)) as [H1|H1].
  - replace (Nat.min (i + 3) N - (i + 1)) with 0 by lia. simpl.
    destruct (Nat.ltb_spec (i + 1) N), (Nat.ltb_spec (i + 2) N); try lia. reflexivity.
  - destruct (Nat.eq_dec N (i + 2)) as [H2|H2].
    + replace (Nat.min (i + 3) N - (i + 1)) with 1 by lia. simpl.
      destruct (Nat.ltb_spec (i + 1) N), (Nat.ltb_spec (i + 2) N); try lia. reflexivity.
    + replace (Nat.min (i + 3) N - (i + 1)) with 2 by lia. simpl.
      destruct (Nat.ltb_spec (i + 1) N), (Nat.ltb_spec (i + 2) N); try lia.
      do 2 f_equal. lia.
Qed.

Lemma compare_articles_body_ok (it : list string -> list string) (arts : list article) :
  wf_batch arts = true -> compare_articles_body it arts = Ok (compare_spec it arts).
Proof.
  intros Hwf. unfold compare_articles_body.
  rewrite !(count_label_ok _ _ Hwf), (collect_topic_sets_ok _ Hwf), (scan_i_ok _ _ Hwf).
  cbn [mbind result_bind mret result_ret].
  replace (py_range 0 (length arts)) with (seq 0 (length arts))
    by (unfold py_range; f_equal; lia).
  unfold compare_spec, window_pairs.
  do 5 f_equal.
  apply flat_map_ext. intros i. rewrite py_range_window. reflexivity.
Qed.

Lemma compare_articles_ok (it : list string -> list string) (arts : list article) :
  wf_batch arts = true -> arts <> [] -> compare_articles it arts = compare_spec it arts.
Proof.
  intros Hwf Hne. unfold compare_articles.
  destruct arts as [|a r]; [congruence|].
  rewrite (compare_articles_body_ok it _ Hwf). reflexivity.
Qed.

(** ** The look-ahead window *)

Lemma StronglySorted_app {A} (R : A -> A -> Prop) (l1 l2 : list A) :
  StronglySorted R l1 -> StronglySorted R l2 ->
  (forall x y, In x l1 -> In y l2 -> R x y) -> StronglySorted R (l1 ++ l2).
Proof.
  induction l1 as [|x l1 IH]; intros H1 H2 H12; simpl; [exact H2|].
  apply StronglySorted_inv in H1 as [H1 Hx].
  constructor.
  - apply IH; [exact H1|exact H2|]. intros a b Ha Hb. apply H12; simpl; auto.
  - apply List.Forall_app. split; [exact Hx|].
    apply List.Forall_forall. intros y Hy. apply H12; simpl; auto.
Qed.

Lemma in_window_from (N s n : nat) (ij : nat * nat) :
  In ij (flat_map (fun i => map (pair i) (List.filter (fun j => Nat.ltb j N) [i + 1; i + 2]))
                  (seq s n)) ->
  s <= ij.1.
Proof.
  rewrite in_flat_map. intros [i [Hi Hin]].
  apply in_seq in Hi. apply in_map_iff in Hin as [j [<- _]]. simpl. lia.
Qed.

Lemma window_from_sorted (N s n : nat) :
  StronglySorted pair_lt
    (flat_map (fun i => map (pair i) (List.filter (fun j => Nat.ltb j N) [i + 1; i + 2]))
              (seq s n)).
Proof.
  revert s. induction n as [|n IH]; intros s; simpl; [constructor|].
  apply StronglySorted_app.
  - simpl. destruct (Nat.ltb_spec (s + 1) N), (Nat.ltb_spec (s + 2) N); simpl;
      repeat match goal with
             | |- StronglySorted _ _ => constructor
             | |- Forall _ _ => constructor
             | |- pair_lt _ _ => unfold pair_lt; simpl; lia
             end.
  - apply IH.
  - intros x y Hx Hy.
    apply in_window_from in Hy.
    apply in_map_iff in Hx as [j [<- _]].
    unfold pair_lt. simpl in *. lia.
Qed.

Lemma in_window_pairs (N i j : nat) :
  In (i, j) (window_pairs N) <-> (j = i + 1 \/ j = i + 2) /\ j < N.
Proof.
  unfold window_pairs. rewrite in_flat_map. split.
  - intros [i' [Hi' Hin]].
    apply in_map_iff in Hin as [j' [Heq Hj']]. injection Heq as <- <-.
    apply List.filter_In in Hj' as [Hj' Hlt]. apply Nat.ltb_lt in Hlt.
    simpl in Hj'. lia.
  - intros [Hj HjN]. exists i. split; [apply in_seq; lia|].
    apply in_map_iff. exists j. split; [reflexivity|].
    apply List.filter_In. split; [simpl; lia|]. apply Nat.ltb_lt. exact HjN.
Qed.

Lemma compare_articles_coverage_le5 (it : list string -> list string) (arts : list article) :
  length (Coverage_Differences (compare_articles it arts)) <= 5.
Proof.
  unfold compare_articles. destruct arts as [|a r]; [simpl; lia|].
  unfold compare_articles_body. cbn [mbind result_bind mret result_ret].
  destruct (count_label "Positive" (a :: r)); [|simpl; lia].
  destruct (count_label "Negative" (a :: r)); [|simpl; lia].
  destruct (count_label "Neutral" (a :: r)); [|simpl; lia].
  destruct (collect_topic_sets (a :: r)); [|simpl; lia].
  destruct (scan_i (a :: r) (py_range 0 (length (a :: r)))); [|simpl; lia].
  simpl. rewrite length_take. lia.
Qed.

(** C1: on a batch of records as the upstream analysis builds them, the
    Coverage Differences are the entries for the pairs [(i, j)] with
    [j = i+1] or [j = i+2] and [j < N] whose labels differ, taken in
    increasing index order, cut to the first 5; so there are at most 5. *)
Theorem compare_articles_coverage (it : list string -> list string) (arts : list article)
    (Hwf : wf_batch arts = true) :
  Coverage_Differences (compare_articles it arts) =
    take 5 (map (coverage_entry arts)
                (List.filter (labels_differ arts) (window_pairs (length arts)))) /\
  length (Coverage_Differences (compare_articles it arts)) <= 5 /\
  (forall i j, In (i, j) (window_pairs (length arts)) <->
               (j = i + 1 \/ j = i + 2) /\ j < length arts) /\
  StronglySorted pair_lt (window_pairs (length arts)).
Proof.
  split; [|split; [|split]].
  - destruct arts as [|a r]; [reflexivity|].
    rewrite (compare_articles_ok it _ Hwf) by discriminate. reflexivity.
  - apply compare_articles_coverage_le5.
  - intros i j. apply in_window_pairs.
  - apply window_from_sorted.
Qed.

(** ** Python sets *)

Lemma in_py_set (x : string) (ts : list string) : In x (py_set ts) <-> In x ts.
Proof. unfold py_set. rewrite <- !list_elem_of_In. apply elem_of_remove_dups. Qed.

Lemma NoDup_py_set (ts : list string) : NoDup (py_set ts).
Proof. apply NoDup_remove_dups. Qed.

Lemma in_set_iter (it : list string -> list string) (s : list string) (x : string) :
  set_iter_ok it -> NoDup s -> In x (it s) <-> In x s.
Proof.
  intros Hit Hs. pose proof (Hit s Hs) as Hp. split; intros Hx.
  - exact (Permutation_in _ Hp Hx).
  - exact (Permutation_in _ (Permutation_sym Hp) Hx).
Qed.

Lemma Forall_NoDup_topic_sets (arts : list article) : Forall NoDup (topic_sets arts).
Proof.
  unfold topic_sets. apply List.Forall_forall. intros s Hs.
  apply in_map_iff in Hs as [a [<- _]]. apply NoDup_py_set.
Qed.

Lemma in_foldl_filter (rest : list (list string)) (acc : list string) (x : string) :
  In x (foldl (fun acc t => List.filter (fun y => bool_decide (y ∈ t)) acc) acc rest) <->
  In x acc /\ (forall t, In t rest -> In x t).
Proof.
  revert acc. induction rest as [|t rest IH]; intros acc; simpl.
  - split; [intros H; split; [exact H|tauto] | tauto].
  - rewrite IH, List.filter_In, bool_decide_eq_true, list_elem_of_In.
    split.
    + intros [[Ha Ht] Hr]. split; [exact Ha|]. intros t' [<-|Ht']; auto.
    + intros [Ha Hr]. split; [split; [exact Ha|auto]|]. intros t' Ht'; auto.
Qed.

Lemma in_intersection_all (sets : list (list string)) (x : string) :
  sets <> [] -> In x (intersection_all sets) <-> (forall s, In s sets -> In x s).
Proof.
  destruct sets as [|s rest]; intros Hne; [congruence|].
  simpl. rewrite in_foldl_filter. split.
  - intros [Hs Hr] s' [<-|Hs']; auto.
  - intros H. split; auto.
Qed.

Lemma NoDup_foldl_filter (rest : list (list string)) (acc : list string) :
  NoDup acc ->
  NoDup (foldl (fun acc t => List.filter (fun y => bool_decide (y ∈ t)) acc) acc rest).
Proof.
  revert acc. induction rest as [|t rest IH]; intros acc Hacc; simpl; [exact Hacc|].
  apply IH. apply NoDup_ListNoDup, List.NoDup_filter, NoDup_ListNoDup. exact Hacc.
Qed.

Lemma NoDup_map_fst_filter {B} (f : string * B -> bool) (l : list (string * B)) :
  NoDup (map fst l) -> NoDup (map fst (List.filter f l)).
Proof.
  induction l as [|[k v] l IH]; simpl; intros Hnd; [constructor|].
  apply NoDup_cons in Hnd as [Hk Hnd].
  destruct (f (k, v)); simpl; [|exact (IH Hnd)].
  constructor; [|exact (IH Hnd)].
  rewrite list_elem_of_In in Hk |- *.
  intros Hin. apply Hk. apply in_map_iff in Hin as [[k' v'] [Heq Hin]].
  simpl in Heq. subst k'. apply List.filter_In in Hin as [Hin _].
  apply in_map_iff. exists (k, v'). split; [reflexivity|exact Hin].
Qed.

Lemma NoDup_common_topics_of (it : list string -> list string) (sets : list (list string)) :
  Forall NoDup sets -> NoDup (common_topics_of it sets).
Proof.
  intros Hsets. unfold common_topics_of.
  assert (Hi : NoDup (intersection_all sets)).
  { destruct sets as [|s rest]; simpl; [constructor|].
    apply NoDup_foldl_filter. inversion Hsets; assumption. }
  destruct (intersection_all sets) as [|x c] eqn:E; [|exact Hi].
  destruct sets as [|s rest]; [exact Hi|].
  unfold fallback_common. apply NoDup_map_fst_filter. apply NoDup_fst_map_to_list.
Qed.

(** ** The frequency fallback *)

Lemma count_inner_lookup (l : list string) (m : gmap string nat) (t : string) :
  NoDup l ->
  foldl (fun m t => <[t := default 0 (m !! t) + 1]> m) m l !! t =
    if bool_decide (t ∈ l) then Some (default 0 (m !! t) + 1) else m !! t.
Proof.
  revert m. induction l as [|x l IH]; intros m Hnd; simpl.
  - try (case_bool_decide as H; [set_solver|]). reflexivity.
  - apply NoDup_cons in Hnd as [Hx Hnd].
    rewrite (IH _ Hnd), lookup_insert.
    case_bool_decide as Hl; case_bool_decide as Hxl; try set_solver;
      case_decide; subst; try set_solver; reflexivity.
Qed.

Lemma count_topics_lookup_from (it : list string -> list string)
    (sets : list (list string)) (m : gmap string nat) (t : string) :
  set_iter_ok it -> Forall NoDup sets ->
  foldl (fun m s => foldl (fun m t => <[t := default 0 (m !! t) + 1]> m) m (it s)) m sets !! t
    = opt_add (m !! t) (freq_sets t sets).
Proof.
  intros Hit. revert m. induction sets as [|s sets IH]; intros m Hsets; simpl.
  - unfold freq_sets; simpl. destruct (m !! t); simpl; [f_equal; lia|reflexivity].
  - inversion Hsets as [|? ? Hs Hrest]; subst.
    rewrite (IH _ Hrest), (count_inner_lookup (it s)).
    2: { rewrite (Hit s Hs). exact Hs. }
    assert (Hiff : t ∈ it s <-> t ∈ s) by (rewrite (Hit s Hs); reflexivity).
    unfold freq_sets. simpl.
    case_bool_decide as H1; case_bool_decide as H2; try tauto; simpl;
      destruct (m !! t); simpl; try reflexivity;
      destruct (length _); simpl; f_equal; lia.
Qed.

Lemma count_topics_lookup (it : list string -> list string)
    (sets : list (list string)) (t : string) :
  set_iter_ok it -> Forall NoDup sets ->
  count_topics it sets !! t = opt_add None (freq_sets t sets).
Proof. intros Hit Hs. unfold count_topics. apply count_topics_lookup_from; assumption. Qed.

Lemma meets_threshold_spec (n c : nat) :
  meets_threshold n c = true <-> spec_threshold n <= c.
Proof.
  unfold meets_threshold, spec_threshold.
  rewrite Qle_bool_iff, Q.max_lub_iff.
  unfold Qle, inject_Z, Qmult. cbn [Qnum Qden].
  change (Z.pos (1 * 10)) with 10%Z.
  rewrite Nat.max_lub_iff.
  pose proof (Nat.div_mod (3 * n + 9) 10 ltac:(lia)).
  pose proof (Nat.mod_upper_bound (3 * n + 9) 10 ltac:(lia)).
  split; intros [H1 H2]; split; lia.
Qed.

Lemma in_fallback_common (it : list string -> list string)
    (sets : list (list string)) (t : string) :
  set_iter_ok it -> Forall NoDup sets ->
  In t (fallback_common it sets) <-> spec_threshold (length sets) <= freq_sets t sets.
Proof.
  intros Hit Hs. unfold fallback_common.
  rewrite in_map_iff. split.
  - intros [[k c] [Hk Hin]]. simpl in Hk. subst k.
    apply List.filter_In in Hin as [Hin Hm]. simpl in Hm.
    apply meets_threshold_spec in Hm.
    rewrite <- list_elem_of_In, elem_of_map_to_list, count_topics_lookup in Hin by assumption.
    unfold opt_add in Hin. destruct (freq_sets t sets); [discriminate|].
    injection Hin as <-. exact Hm.
  - intros Hf. exists (t, freq_sets t sets). split; [reflexivity|].
    apply List.filter_In. split.
    + rewrite <- list_elem_of_In, elem_of_map_to_list, count_topics_lookup by assumption.
      unfold opt_add. unfold spec_threshold in Hf.
      destruct (freq_sets t sets); [lia|reflexivity].
    + simpl. apply meets_threshold_spec. exact Hf.
Qed.

(** ** Topic overlap of a well-formed batch *)

Lemma freq_sets_topic_sets (t : string) (arts : list article) :
  freq_sets t (topic_sets arts) = topic_freq t arts.
Proof.
  unfold freq_sets, topic_sets, topic_freq.
  induction (topic_bearing arts) as [|a l IH]; [reflexivity|].
  simpl. rewrite (bool_decide_ext (t ∈ py_set (topics_of a)) (t ∈ topics_of a)).
  - destruct (bool_decide (t ∈ topics_of a)); simpl; [f_equal|]; exact IH.
  - rewrite !list_elem_of_In. apply in_py_set.
Qed.

Lemma topic_bearing_nonempty (arts : list article) :
  topic_bearing arts <> [] -> arts <> [].
Proof. intros H ->. apply H. reflexivity. Qed.

Lemma intersection_empty_of (arts : list article) :
  topic_bearing arts <> [] ->
  ~ (exists t, forall a, In a (topic_bearing arts) -> In t (topics_of a)) ->
  intersection_all (topic_sets arts) = [].
Proof.
  intros Hne Hnone.
  assert (Hs : topic_sets arts <> []).
  { unfold topic_sets. destruct (topic_bearing arts); [congruence|discriminate]. }
  destruct (intersection_all (topic_sets arts)) as [|x c] eqn:E; [reflexivity|].
  exfalso. apply Hnone. exists x. intros a Ha.
  assert (Hx : In x (intersection_all (topic_sets arts))) by (rewrite E; left; reflexivity).
  rewrite (in_intersection_all _ _ Hs) in Hx.
  apply in_py_set. apply Hx. unfold topic_sets. apply in_map_iff. exists a. split; auto.
Qed.

Lemma unique_topics_perm (it : list string -> list string) (arts : list article)
    (c : list string) :
  set_iter_ok it ->
  Forall2 (fun a u => u ≡ₚ List.filter (fun x => negb (bool_decide (x ∈ c))) (py_set (topics_of a)))
          (topic_bearing arts) (unique_topics it (topic_sets arts) c).
Proof.
  intros Hit. unfold unique_topics, topic_sets.
  induction (topic_bearing arts) as [|a l IH]; simpl; constructor; [|exact IH].
  apply Hit. apply NoDup_ListNoDup, List.NoDup_filter, NoDup_ListNoDup, NoDup_py_set.
Qed.

Lemma Forall2_impl_strong {A B} (P Q : A -> B -> Prop) (l : list A) (k : list B) :
  (forall a b, P a b -> Q a b) -> Forall2 P l k -> Forall2 Q l k.
Proof. intros H. induction 1; constructor; auto. Qed.

Lemma common_out_iff (it : list string -> list string) (arts : list article) (x : string) :
  set_iter_ok it ->
  In x (it (common_topics_of it (topic_sets arts))) <-> In x (common_topics_of it (topic_sets arts)).
Proof.
  intros Hit. apply in_set_iter; [exact Hit|].
  apply NoDup_common_topics_of. apply Forall_NoDup_topic_sets.
Qed.

(** C2: when no topic is shared by all topic sets and some record has a
    [topics] key, the Common Topics are exactly the topics contained in at
    least [max(2, ceil(0.3 n))] of the topic sets, where [n] counts only the
    records that have a [topics] key. *)
Theorem compare_articles_common_fallback (it : list string -> list string)
    (arts : list article) (Hit : set_iter_ok it) (Hwf : wf_batch arts = true)
    (Hbear : topic_bearing arts <> [])
    (Hempty : ~ exists t, forall a, In a (topic_bearing arts) -> In t (topics_of a)) :
  forall t, In t (Common_Topics (Topic_Overlap (compare_articles it arts))) <->
            spec_threshold (length (topic_bearing arts)) <= topic_freq t arts.
Proof.
  intros t.
  rewrite (compare_articles_ok it arts Hwf (topic_bearing_nonempty _ Hbear)).
  unfold compare_spec. cbn [Topic_Overlap Common_Topics].
  rewrite (common_out_iff it arts t Hit).
  unfold common_topics_of at 1. rewrite (intersection_empty_of arts Hbear Hempty).
  destruct (topic_sets arts) as [|s rest] eqn:Es.
  { exfalso. unfold topic_sets in Es. destruct (topic_bearing arts); [congruence|discriminate]. }
  rewrite <- Es.
  rewrite in_fallback_common by (exact Hit || apply Forall_NoDup_topic_sets).
  rewrite freq_sets_topic_sets. unfold topic_sets. rewrite length_map. reflexivity.
Qed.

(** C5: each topic-bearing record, in input order, has one Unique Topics
    entry, whose elements are the record's topics that are not Common
    Topics; so the entry and the Common Topics together cover the record's
    topics, and they share no topic. *)
Theorem compare_articles_unique_topics (it : list string -> list string)
    (arts : list article) (Hit : set_iter_ok it) (Hwf : wf_batch arts = true) :
  let ov := Topic_Overlap (compare_articles it arts) in
  Forall2 (fun a u =>
             (forall x, In x u <-> In x (topics_of a) /\ ~ In x (Common_Topics ov)) /\
             (forall x, In x (topics_of a) -> In x u \/ In x (Common_Topics ov)) /\
             (forall x, In x u -> ~ In x (Common_Topics ov)))
          (topic_bearing arts) (Unique_Topics ov).
Proof.
  intros ov. subst ov.
  destruct arts as [|a0 r]; [constructor|].
  rewrite (compare_articles_ok it _ Hwf) by discriminate.
  unfold compare_spec. cbn [Topic_Overlap Common_Topics Unique_Topics].
  eapply Forall2_impl_strong; [|apply unique_topics_perm; exact Hit].
  intros a u Hu.
  assert (Hmem : forall x, In x u <->
            In x (topics_of a) /\ ~ In x (it (common_topics_of it (topic_sets (a0 :: r))))).
  { intros x. rewrite common_out_iff by exact Hit. split.
    - intros Hx. apply (Permutation_in _ Hu) in Hx.
      apply List.filter_In in Hx as [Hx Hn].
      apply negb_true_iff, bool_decide_eq_false in Hn.
      rewrite list_elem_of_In in Hn. split; [apply in_py_set; exact Hx|exact Hn].
    - intros [Hx Hn]. apply (Permutation_in _ (Permutation_sym Hu)).
      apply List.filter_In. split; [apply in_py_set; exact Hx|].
      apply negb_true_iff, bool_decide_eq_false. rewrite list_elem_of_In. exact Hn. }
  split; [exact Hmem|split].
  - intros x Hx. destruct (in_dec string_dec x (it (common_topics_of it (topic_sets (a0 :: r)))))
      as [Hc|Hc]; [right; exact Hc|left; apply Hmem; tauto].
  - intros x Hx. apply Hmem in Hx. tauto.
Qed.

Lemma rev_set_iter_ok : set_iter_ok (@rev string).
Proof. intros s _. apply Permutation_sym, Permutation_rev. Qed.

Lemma id_set_iter_ok : set_iter_ok id.
Proof. intros s _. reflexivity. Qed.

(** C9 (as the code has it): the Unique Topics entry of each topic-bearing
    record holds each of its topics outside the Common Topics once, in the
    iteration order of a Python set, which need not be the order of the
    record's topic list. *)
Theorem compare_articles_unique_topics_set_order (it : list string -> list string)
    (arts : list article) (Hit : set_iter_ok it) (Hwf : wf_batch arts = true) :
  let ov := Topic_Overlap (compare_articles it arts) in
  Forall2 (fun a u =>
             NoDup u /\
             u ≡ₚ List.filter (fun x => negb (bool_decide (x ∈ Common_Topics ov)))
                              (py_set (topics_of a)))
          (topic_bearing arts) (Unique_Topics ov).
Proof.
  intros ov. subst ov.
  destruct arts as [|a0 r]; [constructor|].
  rewrite (compare_articles_ok it _ Hwf) by discriminate.
  unfold compare_spec. cbn [Topic_Overlap Common_Topics Unique_Topics].
  eapply Forall2_impl_strong; [|apply unique_topics_perm; exact Hit].
  intros a u Hu.
  assert (Hf : List.filter (fun x => negb (bool_decide (x ∈ it (common_topics_of it (topic_sets (a0 :: r))))))
                           (py_set (topics_of a)) =
               List.filter (fun x => negb (bool_decide (x ∈ common_topics_of it (topic_sets (a0 :: r)))))
                           (py_set (topics_of a))).
  { apply List.filter_ext. intros x. f_equal. apply bool_decide_ext.
    rewrite !list_elem_of_In. apply common_out_iff. exact Hit. }
  rewrite Hf. split; [|exact Hu].
  rewrite Hu. apply NoDup_ListNoDup, List.NoDup_filter, NoDup_ListNoDup, NoDup_py_set.
Qed.

(** C9 refuted: with the set order CPython gives [{"A", "B"}] under
    [PYTHONHASHSEED=0] (["B", "A"]), the Unique Topics entry of a record
    with topics ["A", "B"] is ["B", "A"], not a subsequence of its topics. *)
Lemma compare_articles_unique_order_counterexample :
  set_iter_ok (@rev string) /\
  topics_of (nth 0 batch_disjoint no_article) = ["A"; "B"] /\
  nth 0 (Unique_Topics (Topic_Overlap (compare_articles (@rev string) batch_disjoint))) [] = ["B"; "A"] /\
  ~ (["B"; "A"] `sublist_of` ["A"; "B"]).
Proof.
  split; [exact rev_set_iter_ok|].
  split; [reflexivity|]. split; [vm_compute; reflexivity|].
  intros Hs.
  repeat match goal with
         | Hs : sublist _ _ |- _ => inversion Hs; subst; clear Hs
         end.
Qed.

(** ** Failing soft *)

(** C6: [compare_articles] and [generate_final_sentiment_text] return a
    value on every input: [compare_articles []] is the zero-valued default,
    an exception raised inside the [try] block of [compare_articles] gives
    that default (e.g. on a record whose [sentiment] is not a mapping), and
    one raised inside [generate_final_sentiment_text] gives the inconclusive
    narrative (e.g. on [None] as analysis data). *)
Theorem fail_soft (it : list string -> list string) :
  compare_articles it [] = default_comparative /\
  (forall arts e, arts <> [] -> compare_articles_body it arts = Err e ->
                  compare_articles it arts = default_comparative) /\
  (forall arts, compare_articles it arts = default_comparative \/
                exists v, compare_articles_body it arts = Ok v /\ compare_articles it arts = v) /\
  (forall company a e, final_text_body company a (get_overall_sentiment a) = Err e ->
                       generate_final_sentiment_text company a = inconclusive company) /\
  (forall company a, generate_final_sentiment_text company a = inconclusive company \/
                     exists v, final_text_body company a (get_overall_sentiment a) = Ok v /\
                               generate_final_sentiment_text company a = v) /\
  compare_articles it batch_malformed = default_comparative /\
  (forall company, generate_final_sentiment_text company ANone = inconclusive company).
Proof.
  split; [reflexivity|]. split; [|split; [|split; [|split; [|split]]]].
  - intros arts e Hne He. unfold compare_articles.
    destruct arts; [congruence|]. rewrite He. reflexivity.
  - intros arts. unfold compare_articles. destruct arts as [|a r]; [left; reflexivity|].
    destruct (compare_articles_body it (a :: r)) as [v|e]; [right; exists v; auto|left; reflexivity].
  - intros company a e He. unfold generate_final_sentiment_text. cbv zeta. rewrite He. reflexivity.
  - intros company a. unfold generate_final_sentiment_text. cbv zeta.
    destruct (final_text_body company a (get_overall_sentiment a)) as [v|e];
      [right; exists v; auto|left; reflexivity].
  - reflexivity.
  - intros company. reflexivity.
Qed.

(** ** Sentiment distribution *)

Lemma count_label_Ok (lab : string) (arts : list article) (k : nat) :
  count_label lab arts = Ok k ->
  k = length (List.filter (fun a => bool_decide (label_of a = Some lab)) arts).
Proof.
  revert k. induction arts as [|a r IH]; intros k H; cbn [count_label] in H.
  - injection H as <-. reflexivity.
  - destruct (get_label a) as [l|e] eqn:El; [|discriminate].
    destruct (count_label lab r) as [n|e] eqn:Er; [|discriminate].
    cbn [mbind result_bind mret result_ret] in H. injection H as <-.
    assert (Hl : l = label_of a).
    { unfold get_label, label_of, mret, result_ret in *.
      destruct (sentiment a) as [[?|]|]; congruence. }
    subst l. rewrite (IH n eq_refl). cbn [List.filter].
    destruct (bool_decide _); reflexivity.
Qed.

Lemma filter_three_labels (arts : list article) :
  length (List.filter (fun a => bool_decide (label_of a = Some "Positive")) arts) +
  length (List.filter (fun a => bool_decide (label_of a = Some "Negative")) arts) +
  length (List.filter (fun a => bool_decide (label_of a = Some "Neutral")) arts) =
  length (List.filter (fun a => bool_decide (label_of a ∈ counted_labels)) arts).
Proof.
  induction arts as [|a r IH]; [reflexivity|]. cbn [List.filter].
  unfold counted_labels in *.
  generalize (label_of a). intros o.
  repeat case_bool_decide; subst; cbn [length]; try lia;
    rewrite ?list_elem_of_In in *; simpl in *; intuition congruence.
Qed.

Lemma filter_length_eq_iff {A} (f : A -> bool) (l : list A) :
  length (List.filter f l) <= length l /\
  (length (List.filter f l) = length l <-> Forall (fun a => f a = true) l).
Proof.
  induction l as [|a l [IHle IHeq]]; simpl; [split; [lia|split; constructor]|].
  destruct (f a) eqn:E; simpl; split; try lia.
  - rewrite List.Forall_cons_iff. split; [intros H; split; [exact E|apply IHeq; lia]|].
    intros [_ H]. apply IHeq in H. lia.
  - split; [lia|]. intros H. inversion H. congruence.
Qed.

Lemma distribution_cases (it : list string -> list string) (arts : list article) :
  Sentiment_Distribution (compare_articles it arts) = mkDist 0 0 0 \/
  Sentiment_Distribution (compare_articles it arts) =
    mkDist (length (List.filter (fun a => bool_decide (label_of a = Some "Positive")) arts))
           (length (List.filter (fun a => bool_decide (label_of a = Some "Negative")) arts))
           (length (List.filter (fun a => bool_decide (label_of a = Some "Neutral")) arts)).
Proof.
  unfold compare_articles. destruct arts as [|a r]; [left; reflexivity|].
  unfold compare_articles_body. cbn [mbind result_bind mret result_ret].
  destruct (count_label "Positive" (a :: r)) as [p|] eqn:Ep; [|left; reflexivity].
  destruct (count_label "Negative" (a :: r)) as [n|] eqn:En; [|left; reflexivity].
  destruct (count_label "Neutral" (a :: r)) as [u|] eqn:Eu; [|left; reflexivity].
  destruct (collect_topic_sets (a :: r)); [|left; reflexivity].
  destruct (scan_i (a :: r) (py_range 0 (length (a :: r)))); [|left; reflexivity].
  right. cbn [try_except Sentiment_Distribution].
  rewrite <- (count_label_Ok _ _ _ Ep), <- (count_label_Ok _ _ _ En), <- (count_label_Ok _ _ _ Eu).
  reflexivity.
Qed.

(** C8 (as the code has it): the three counts always exist and sum to at
    most [len(articles)]; each record adds to at most one bucket, by exact
    match of its label; on a batch processed without error the sum is the
    number of records labelled exactly Positive, Negative or Neutral, so it
    equals [len(articles)] exactly when every record carries one of these
    three labels. *)
Theorem compare_articles_distribution (it : list string -> list string) (arts : list article) :
  let d := Sentiment_Distribution (compare_articles it arts) in
  Positive d + Negative d + Neutral d <= length arts /\
  (wf_batch arts = true ->
     Positive d = length (List.filter (fun a => bool_decide (label_of a = Some "Positive")) arts) /\
     Negative d = length (List.filter (fun a => bool_decide (label_of a = Some "Negative")) arts) /\
     Neutral d = length (List.filter (fun a => bool_decide (label_of a = Some "Neutral")) arts) /\
     Positive d + Negative d + Neutral d =
       length (List.filter (fun a => bool_decide (label_of a ∈ counted_labels)) arts) /\
     (Positive d + Negative d + Neutral d = length arts <->
        Forall (fun a => label_of a ∈ counted_labels) arts)).
Proof.
  intros d. subst d. split.
  - destruct (distribution_cases it arts) as [E|E]; rewrite E; simpl; [lia|].
    rewrite filter_three_labels. apply filter_length_eq_iff.
  - intros Hwf. destruct arts as [|a r].
    { simpl. repeat split; intros; first [apply List.Forall_nil | reflexivity]. }
    rewrite (compare_articles_ok it _ Hwf) by discriminate.
    unfold compare_spec. cbn [Sentiment_Distribution Positive Negative Neutral].
    rewrite filter_three_labels.
    split; [reflexivity|split; [reflexivity|split; [reflexivity|split; [reflexivity|]]]].
    rewrite (proj2 (filter_length_eq_iff _ _)).
    split; intros H; eapply List.Forall_impl; try exact H; intros b Hb; simpl in *;
      [apply bool_decide_eq_true in Hb | apply bool_decide_eq_true]; exact Hb.
Qed.

(** C8 refuted: a record labelled ["Mixed"] has a label but counts in no
    bucket, so the sum is 0 for one record. *)
Lemma compare_articles_distribution_counterexample :
  let d := Sentiment_Distribution (compare_articles id batch_mixed) in
  Positive d + Negative d + Neutral d = 0 /\ length batch_mixed = 1 /\
  Forall (fun a => label_of a <> None) batch_mixed.
Proof.
  split; [vm_compute; reflexivity|split; [reflexivity|]].
  constructor; [discriminate|constructor].
Qed.

(** ** A missing label against the label "Unknown" *)

Lemma impact_both_unknown (a1 a2 : article) :
  sentiment_ok a1 = true -> sentiment_ok a2 = true ->
  resolved_label a1 = "Unknown" -> resolved_label a2 = "Unknown" ->
  generate_impact_analysis a1 a2 = shared_perception.
Proof.
  intros H1 H2 E1 E2. unfold generate_impact_analysis, impact_body.
  rewrite (get_label_or_unknown_ok a1 H1), (get_label_or_unknown_ok a2 H2), E1, E2.
  reflexivity.
Qed.

Lemma in_take_l {A} (n : nat) (l : list A) (x : A) : In x (take n l) -> In x l.
Proof. intros H. rewrite <- (List.firstn_skipn n l). apply in_or_app. left. exact H. Qed.

Lemma StronglySorted_filter {A} (R : A -> A -> Prop) (f : A -> bool) (l : list A) :
  StronglySorted R l -> StronglySorted R (List.filter f l).
Proof.
  induction 1 as [|x l Hs IH Hall]; [constructor|]. simpl. destruct (f x); [|exact IH].
  constructor; [exact IH|]. apply List.Forall_forall. intros y Hy.
  apply List.filter_In in Hy as [Hy _]. exact (proj1 (List.Forall_forall _ _) Hall y Hy).
Qed.

Lemma StronglySorted_app_inv {A} (R : A -> A -> Prop) (l1 l2 : list A) :
  StronglySorted R (l1 ++ l2) -> forall x y, In x l1 -> In y l2 -> R x y.
Proof.
  induction l1 as [|z l1 IH]; intros H x y Hx Hy; [destruct Hx|].
  apply StronglySorted_inv in H as [H Hz]. destruct Hx as [<-|Hx].
  - exact (proj1 (List.Forall_forall _ _) Hz y (in_or_app _ _ _ (or_intror Hy))).
  - exact (IH H x y Hx Hy).
Qed.

Lemma sorted_position (q : list (nat * nat)) (x : nat * nat) (k : nat) :
  StronglySorted pair_lt q -> nth_error q k = Some x ->
  forall p, In p q -> (pair_lt p x <-> In p (take k q)).
Proof.
  intros Hs Hk p Hp.
  pose proof (List.firstn_skipn_middle k q Hk) as Eq.
  rewrite <- Eq in Hs, Hp.
  assert (Hlt : forall y, In y (take k q) -> pair_lt y x).
  { intros y Hy. exact (StronglySorted_app_inv _ _ _ Hs y x Hy (or_introl eq_refl)). }
  assert (Hgt : forall z, In z (drop (S k) q) -> pair_lt x z).
  { intros z Hz.
    change (take k q ++ x :: drop (S k) q)%list with (take k q ++ [x] ++ drop (S k) q)%list in Hs.
    rewrite (app_assoc (take k q) [x]) in Hs.
    apply (StronglySorted_app_inv _ _ _ Hs x z); [|exact Hz].
    apply in_or_app. right. left. reflexivity. }
  split.
  - intros Hpx. apply in_app_or in Hp as [Hp|[<-|Hp]]; [exact Hp| |].
    + exfalso. unfold pair_lt in Hpx. lia.
    + exfalso. pose proof (Hgt p Hp). unfold pair_lt in *. lia.
  - apply Hlt.
Qed.

(** C10 (as the code has it): a record without a label and a record
    labelled ["Unknown"] within the look-ahead window form a qualifying pair
    of the coverage scan (the loop compares [None] with ["Unknown"]). Let
    [k] be its position among the qualifying pairs, i.e. the number of
    qualifying pairs the scan meets before it. When [k < 5], entry [k] of
    the Coverage Differences of [compare_articles] is the pair's entry;
    otherwise the list already holds the five entries of earlier pairs. The
    pair's Comparison shows ["Unknown"] for both records, and its Impact is
    the shared-perception sentence, since [generate_impact_analysis]
    resolves both labels to ["Unknown"]. *)
Theorem coverage_missing_vs_unknown (it : list string -> list string) (arts : list article)
    (i j : nat)
    (Hwf : wf_batch arts = true) (Hj : j = i + 1 \/ j = i + 2) (HjN : j < length arts)
    (Hlab : (label_of (nth i arts no_article) = None /\
             label_of (nth j arts no_article) = Some "Unknown") \/
            (label_of (nth i arts no_article) = Some "Unknown" /\
             label_of (nth j arts no_article) = None)) :
  let q := List.filter (labels_differ arts) (window_pairs (length arts)) in
  let entry :=
    mkDiff (render_comparison (nth i arts no_article) (nth j arts no_article) i j
              (take 3 (topics_of (nth i arts no_article)))
              (take 3 (topics_of (nth j arts no_article)))
              "Unknown" "Unknown")
           shared_perception in
  let cd := Coverage_Differences (compare_articles it arts) in
  coverage_entry arts (i, j) = entry /\
  exists k, nth_error q k = Some (i, j) /\
    (forall p, In p q -> (pair_lt p (i, j) <-> In p (take k q))) /\
    (k < 5 -> nth_error cd k = Some entry) /\
    (5 <= k -> cd = map (coverage_entry arts) (take 5 q) /\
               Forall (fun p => pair_lt p (i, j)) (take 5 q)).
Proof.
  cbv zeta.
  assert (Hri : resolved_label (nth i arts no_article) = "Unknown")
    by (unfold resolved_label; destruct Hlab as [[-> _]|[-> _]]; reflexivity).
  assert (Hrj : resolved_label (nth j arts no_article) = "Unknown")
    by (unfold resolved_label; destruct Hlab as [[_ ->]|[_ ->]]; reflexivity).
  assert (Hentry : coverage_entry arts (i, j) =
    mkDiff (render_comparison (nth i arts no_article) (nth j arts no_article) i j
              (take 3 (topics_of (nth i arts no_article)))
              (take 3 (topics_of (nth j arts no_article)))
              "Unknown" "Unknown")
           shared_perception).
  { unfold coverage_entry. simpl fst. simpl snd. rewrite Hri, Hrj.
    rewrite (impact_both_unknown _ _
               (proj1 (wf_article_split _ (wf_batch_nth arts i Hwf)))
               (proj1 (wf_article_split _ (wf_batch_nth arts j Hwf))) Hri Hrj).
    reflexivity. }
  set (q := List.filter (labels_differ arts) (window_pairs (length arts))).
  assert (Hin : In (i, j) q).
  { apply List.filter_In. split; [apply in_window_pairs; auto|].
    unfold labels_differ. simpl. apply negb_true_iff, bool_decide_eq_false.
    destruct Hlab as [[-> ->]|[-> ->]]; discriminate. }
  assert (Hcd : Coverage_Differences (compare_articles it arts) =
                take 5 (map (coverage_entry arts) q)).
  { destruct arts as [|a r]; [simpl in HjN; lia|].
    rewrite (compare_articles_ok it _ Hwf) by discriminate. reflexivity. }
  assert (Hs : StronglySorted pair_lt q).
  { apply StronglySorted_filter. exact (window_from_sorted (length arts) 0 (length arts)). }
  split; [exact Hentry|].
  destruct (List.In_nth_error q (i, j) Hin) as [k Hk].
  exists k. split; [exact Hk|]. split; [exact (sorted_position q (i, j) k Hs Hk)|]. split.
  - intros H5. rewrite Hcd, List.nth_error_firstn, (proj2 (Nat.ltb_lt _ _) H5).
    rewrite (List.map_nth_error _ _ _ Hk). rewrite Hentry. reflexivity.
  - intros H5. rewrite Hcd, firstn_map. split; [reflexivity|].
    apply List.Forall_forall. intros p Hp.
    assert (Hpk : In p (take k q)).
    { rewrite <- (Nat.min_l 5 k H5), <- take_take in Hp.
      exact (in_take_l 5 (take k q) p Hp). }
    apply (sorted_position q (i, j) k Hs Hk p); [|exact Hpk].
    exact (in_take_l k q p Hpk).
Qed.

(** C10 refuted: for a record without [sentiment] followed by one labelled
    ["Unknown"], the emitted entry's Impact is the shared-perception
    sentence, not the generic fallback. *)
Lemma coverage_missing_vs_unknown_counterexample :
  Coverage_Differences (compare_articles id batch_missing_unknown) =
    [mkDiff "Article 'Article 1' has Unknown sentiment about the subject, while Article 'Article 2' has Unknown sentiment about the subject."
            shared_perception] /\
  shared_perception <> generic_fallback.
Proof. split; [vm_compute; reflexivity|discriminate]. Qed.

(** ** Witnesses: each theorem at a concrete batch *)

Lemma compare_articles_coverage_witness :
  Coverage_Differences (compare_articles id batch_two) =
    take 5 (map (coverage_entry batch_two)
                (List.filter (labels_differ batch_two) (window_pairs (length batch_two)))) /\
  length (Coverage_Differences (compare_articles id batch_two)) <= 5 /\
  (forall i j, In (i, j) (window_pairs (length batch_two)) <->
               (j = i + 1 \/ j = i + 2) /\ j < length batch_two) /\
  StronglySorted pair_lt (window_pairs (length batch_two)).
Proof. apply (compare_articles_coverage id batch_two). reflexivity. Defined.

Lemma compare_articles_common_fallback_witness :
  In "X" (Common_Topics (Topic_Overlap (compare_articles id batch_fallback))).
Proof.
  apply (proj2 (compare_articles_common_fallback id batch_fallback id_set_iter_ok
                  eq_refl ltac:(discriminate)
                  ltac:(intros [t Ht];
                        pose proof (Ht (art (Some "Positive") (Some ["X"; "A"]))
                                       ltac:(simpl; auto)) as H1;
                        pose proof (Ht (art (Some "Negative") (Some ["D"]))
                                       ltac:(simpl; auto 6)) as H5;
                        simpl in H1, H5;
                        destruct H5 as [<-|[]];
                        destruct H1 as [H1|[H1|[]]]; discriminate)
                  "X")).
  vm_compute. lia.
Defined.

Lemma generate_impact_analysis_table_witness :
  generate_impact_analysis (art (Some "Neutral") None) (art (Some "Negative") None) =
    impact_table (resolved_label (art (Some "Neutral") None))
                 (resolved_label (art (Some "Negative") None)).
Proof. apply generate_impact_analysis_table; reflexivity. Defined.

Lemma get_overall_sentiment_thresholds_witness :
  get_overall_sentiment (dist3 8 1 1) = verdict_spec 8 1 1.
Proof. apply (proj1 (get_overall_sentiment_thresholds 8 1 1 ltac:(lia))). Defined.

Lemma compare_articles_unique_topics_witness :
  let ov := Topic_Overlap (compare_articles id batch_fallback) in
  Forall2 (fun a u =>
             (forall x, In x u <-> In x (topics_of a) /\ ~ In x (Common_Topics ov)) /\
             (forall x, In x (topics_of a) -> In x u \/ In x (Common_Topics ov)) /\
             (forall x, In x u -> ~ In x (Common_Topics ov)))
          (topic_bearing batch_fallback) (Unique_Topics ov).
Proof. apply (compare_articles_unique_topics id batch_fallback id_set_iter_ok). reflexivity. Defined.

Lemma compare_articles_unique_topics_set_order_witness :
  let ov := Topic_Overlap (compare_articles (@rev string) batch_disjoint) in
  Forall2 (fun a u =>
             NoDup u /\
             u ≡ₚ List.filter (fun x => negb (bool_decide (x ∈ Common_Topics ov)))
                              (py_set (topics_of a)))
          (topic_bearing batch_disjoint) (Unique_Topics ov).
Proof.
  apply (compare_articles_unique_topics_set_order (@rev string) batch_disjoint rev_set_iter_ok).
  reflexivity.
Defined.

Lemma coverage_missing_vs_unknown_witness :
  let entry :=
    mkDiff (render_comparison (nth 0 batch_missing_unknown no_article)
                              (nth 1 batch_missing_unknown no_article) 0 1
              (take 3 (topics_of (nth 0 batch_missing_unknown no_article)))
              (take 3 (topics_of (nth 1 batch_missing_unknown no_article)))
              "Unknown" "Unknown")
           shared_perception in
  coverage_entry batch_missing_unknown (0, 1) = entry /\
  nth_error (Coverage_Differences (compare_articles id batch_missing_unknown)) 0 = Some entry.
Proof.
  cbv zeta.
  assert (Hj : 1 = 0 + 1 \/ 1 = 0 + 2) by (left; reflexivity).
  assert (HjN : 1 < length batch_missing_unknown) by (simpl; lia).
  assert (Hlab : (label_of (nth 0 batch_missing_unknown no_article) = None /\
                  label_of (nth 1 batch_missing_unknown no_article) = Some "Unknown") \/
                 (label_of (nth 0 batch_missing_unknown no_article) = Some "Unknown" /\
                  label_of (nth 1 batch_missing_unknown no_article) = None))
    by (left; split; reflexivity).
  destruct (coverage_missing_vs_unknown id batch_missing_unknown 0 1 eq_refl Hj HjN Hlab)
    as [He [k [Hk [_ [H5 _]]]]].
  split; [exact He|].
  destruct k as [|k]; [exact (H5 ltac:(lia))|].
  exfalso. destruct k; vm_compute in Hk; discriminate Hk.
Defined.

(** ** Whitespace normalisation *)

Lemma sub_ws_spaces (b : bool) (s : pystr) (c : N) :
  In c (sub_ws b s) -> py_isspace c = true -> c = 32%N.
Proof.
  revert b. induction s as [|x r IH]; intros b; simpl; [tauto|].
  destruct (py_isspace x) eqn:Ex.
  - destruct b; simpl; [apply IH|]. intros [<-|H] Hc; [reflexivity|exact (IH _ H Hc)].
  - intros [<-|H] Hc; [congruence|exact (IH _ H Hc)].
Qed.

Lemma sub_ws_head_true (s : pystr) (c : N) (l : pystr) :
  sub_ws true s = c :: l -> py_isspace c = false.
Proof.
  induction s as [|x r IH]; simpl; [discriminate|].
  destruct (py_isspace x) eqn:Ex; [exact IH|]. intros [= -> _]. exact Ex.
Qed.

Lemma sub_ws_pairs (b : bool) (s : pystr) (l1 l2 : pystr) (c d : N) :
  sub_ws b s = (l1 ++ c :: d :: l2)%list -> py_isspace c && py_isspace d = false.
Proof.
  revert b l1. induction s as [|x r IH]; intros b l1; simpl.
  - destruct l1; discriminate.
  - destruct (py_isspace x) eqn:Ex.
    + destruct b; [apply IH|].
      destruct l1 as [|y l1]; simpl.
      * intros [= <- E]. apply sub_ws_head_true in E. rewrite E. apply andb_false_r.
      * intros [= _ E]. exact (IH _ _ E).
    + destruct l1 as [|y l1]; simpl.
      * intros [= <- _]. rewrite Ex. reflexivity.
      * intros [= _ E]. exact (IH _ _ E).
Qed.

Lemma sub_ws_id (b : bool) (r : pystr) :
  (forall c, In c r -> py_isspace c = true -> c = 32%N) ->
  (forall l1 l2 c d, r = (l1 ++ c :: d :: l2)%list -> py_isspace c && py_isspace d = false) ->
  (b = true -> forall c l, r = c :: l -> py_isspace c = false) ->
  sub_ws b r = r.
Proof.
  revert b. induction r as [|x r IH]; intros b Hsp Hpair Hhead; [reflexivity|]. simpl.
  destruct (py_isspace x) eqn:Ex.
  - destruct b; [rewrite (Hhead eq_refl x r eq_refl) in Ex; discriminate|].
    rewrite (Hsp x (or_introl eq_refl) Ex). f_equal. apply IH.
    + intros c Hc. apply Hsp. right. exact Hc.
    + intros l1 l2 c d ->. apply (Hpair (x :: l1) l2). reflexivity.
    + intros _ c l ->. specialize (Hpair [] l x c eq_refl). rewrite Ex in Hpair. exact Hpair.
  - f_equal. apply IH.
    + intros c Hc. apply Hsp. right. exact Hc.
    + intros l1 l2 c d ->. apply (Hpair (x :: l1) l2). reflexivity.
    + discriminate.
Qed.

Lemma lstrip_suffix (s : pystr) :
  exists p, s = (p ++ lstrip s)%list /\ Forall (fun c => py_isspace c = true) p.
Proof.
  induction s as [|x r [p [Ep Hp]]]; simpl; [exists []; split; [reflexivity|constructor]|].
  destruct (py_isspace x) eqn:Ex.
  - exists (x :: p). simpl. split; [congruence|constructor; assumption].
  - exists []. split; [reflexivity|constructor].
Qed.

Lemma lstrip_head (s : pystr) (c : N) (l : pystr) :
  lstrip s = c :: l -> py_isspace c = false.
Proof.
  induction s as [|x r IH]; simpl; [discriminate|].
  destruct (py_isspace x) eqn:Ex; [exact IH|]. intros [= <- _]. exact Ex.
Qed.

Lemma lstrip_id (s : pystr) :
  (forall c l, s = c :: l -> py_isspace c = false) -> lstrip s = s.
Proof.
  destruct s as [|x r]; intros H; [reflexivity|]. simpl.
  rewrite (H x r eq_refl). reflexivity.
Qed.

Lemma filter_nonspace_lstrip (s : pystr) :
  List.filter (fun c => negb (py_isspace c)) (lstrip s) =
  List.filter (fun c => negb (py_isspace c)) s.
Proof.
  induction s as [|x r IH]; [reflexivity|]. simpl.
  destruct (py_isspace x) eqn:Ex; simpl; [exact IH|rewrite Ex; reflexivity].
Qed.

Lemma filter_rev' {A} (f : A -> bool) (l : list A) :
  List.filter f (rev l) = rev (List.filter f l).
Proof.
  induction l as [|x l IH]; [reflexivity|]. simpl.
  rewrite List.filter_app, IH. simpl. destruct (f x); simpl; [reflexivity|apply app_nil_r].
Qed.

Lemma filter_nonspace_sub_ws (b : bool) (s : pystr) :
  List.filter (fun c => negb (py_isspace c)) (sub_ws b s) =
  List.filter (fun c => negb (py_isspace c)) s.
Proof.
  revert b. induction s as [|x r IH]; intros b; [reflexivity|]. simpl.
  destruct (py_isspace x) eqn:Ex; simpl.
  - destruct b; simpl; apply IH.
  - rewrite Ex. simpl. f_equal. apply IH.
Qed.

Lemma filter_nonspace_strip (s : pystr) :
  List.filter (fun c => negb (py_isspace c)) (strip s) =
  List.filter (fun c => negb (py_isspace c)) s.
Proof.
  unfold strip. rewrite filter_rev', filter_nonspace_lstrip, filter_rev', rev_involutive.
  apply filter_nonspace_lstrip.
Qed.

Lemma in_strip (s : pystr) (c : N) : In c (strip s) -> In c s.
Proof.
  unfold strip. rewrite <- in_rev. intros H.
  destruct (lstrip_suffix (rev (lstrip s))) as [p [Ep _]].
  assert (H1 : In c (rev (lstrip s))) by (rewrite Ep; apply in_or_app; right; exact H).
  rewrite <- in_rev in H1.
  destruct (lstrip_suffix s) as [q [Eq _]]. rewrite Eq. apply in_or_app. right. exact H1.
Qed.

Lemma pairs_suffix (p t : pystr) :
  (forall l1 l2 c d, (p ++ t)%list = (l1 ++ c :: d :: l2)%list -> py_isspace c && py_isspace d = false) ->
  (forall l1 l2 c d, t = (l1 ++ c :: d :: l2)%list -> py_isspace c && py_isspace d = false).
Proof. intros H l1 l2 c d ->. apply (H (p ++ l1)%list l2). rewrite <- app_assoc. reflexivity. Qed.

Lemma pairs_rev (t : pystr) :
  (forall l1 l2 c d, t = (l1 ++ c :: d :: l2)%list -> py_isspace c && py_isspace d = false) ->
  (forall l1 l2 c d, rev t = (l1 ++ c :: d :: l2)%list -> py_isspace c && py_isspace d = false).
Proof.
  intros H l1 l2 c d E.
  assert (Et : t = (rev l2 ++ d :: c :: rev l1)%list).
  { rewrite <- (rev_involutive t), E. rewrite rev_app_distr. simpl.
    rewrite <- !app_assoc. reflexivity. }
  rewrite andb_comm. exact (H _ _ _ _ Et).
Qed.

Lemma strip_shape (s : pystr) :
  (forall l1 l2 c d, s = (l1 ++ c :: d :: l2)%list -> py_isspace c && py_isspace d = false) ->
  (forall l1 l2 c d, strip s = (l1 ++ c :: d :: l2)%list -> py_isspace c && py_isspace d = false) /\
  (forall c l, strip s = c :: l -> py_isspace c = false) /\
  (forall l c, strip s = (l ++ [c])%list -> py_isspace c = false).
Proof.
  intros Hs. unfold strip.
  destruct (lstrip_suffix s) as [q [Eq _]].
  destruct (lstrip_suffix (rev (lstrip s))) as [p [Ep _]].
  split; [|split].
  - apply pairs_rev. apply (pairs_suffix p). rewrite <- Ep.
    apply pairs_rev. apply (pairs_suffix q). rewrite <- Eq. exact Hs.
  - intros c l E.
    assert (Eu : lstrip s = (c :: l ++ rev p)%list).
    { rewrite <- (rev_involutive (lstrip s)), Ep, rev_app_distr, E. reflexivity. }
    exact (lstrip_head _ _ _ Eu).
  - intros l c E.
    assert (Ev : lstrip (rev (lstrip s)) = c :: rev l).
    { rewrite <- (rev_involutive (lstrip (rev (lstrip s)))), E, rev_app_distr. reflexivity. }
    exact (lstrip_head _ _ _ Ev).
Qed.

Lemma sanitize_text_shape (s : pystr) :
  (forall c, In c (sanitize_text s) -> py_isspace c = true -> c = 32%N) /\
  (forall l1 l2 c d, sanitize_text s = (l1 ++ c :: d :: l2)%list ->
                     py_isspace c && py_isspace d = false) /\
  (forall c l, sanitize_text s = c :: l -> py_isspace c = false) /\
  (forall l c, sanitize_text s = (l ++ [c])%list -> py_isspace c = false).
Proof.
  destruct s as [|x r].
  - simpl. split; [tauto|]. split; [intros [|] ? ? ? ?; discriminate|].
    split; [discriminate|]. intros [|] ? ?; discriminate.
  - change (sanitize_text (x :: r)) with (strip (sub_ws false (x :: r))).
    destruct (strip_shape (sub_ws false (x :: r)) (sub_ws_pairs false (x :: r))) as [H1 [H2 H3]].
    split; [|exact (conj H1 (conj H2 H3))].
    intros c Hc. apply (sub_ws_spaces false (x :: r)). exact (in_strip _ _ Hc).
Qed.

Lemma filter_nonspace_sanitize (s : pystr) :
  List.filter (fun c => negb (py_isspace c)) (sanitize_text s) =
  List.filter (fun c => negb (py_isspace c)) s.
Proof.
  destruct s as [|x r]; [reflexivity|].
  change (sanitize_text (x :: r)) with (strip (sub_ws false (x :: r))).
  rewrite filter_nonspace_strip. apply filter_nonspace_sub_ws.
Qed.

Lemma filter_nil_forall {A} (f : A -> bool) (l : list A) :
  List.filter f l = [] <-> Forall (fun x => f x = false) l.
Proof.
  induction l as [|x l IH]; simpl; [split; [constructor|reflexivity]|].
  destruct (f x) eqn:E; rewrite List.Forall_cons_iff; split.
  - discriminate.
  - intros [H _]. congruence.
  - intros H. split; [exact E|]. apply IH. exact H.
  - intros [_ H]. apply IH. exact H.
Qed.

(** X1: sanitize_text leaves no whitespace but single spaces between
    non-whitespace code points: every whitespace code point of the result is
    a space [' '], no two whitespace code points are adjacent, the result
    neither starts nor ends with whitespace, and it is empty exactly when the
    input is all whitespace (or empty). *)
Theorem sanitize_text_normal_form (s : pystr) :
  let r := sanitize_text s in
  (forall c, In c r -> py_isspace c = true -> c = 32%N) /\
  (forall l1 l2 c d, r = (l1 ++ c :: d :: l2)%list -> py_isspace c && py_isspace d = false) /\
  (forall c l, r = c :: l -> py_isspace c = false) /\
  (forall l c, r = (l ++ [c])%list -> py_isspace c = false) /\
  (r = [] <-> Forall (fun c => py_isspace c = true) s).
Proof.
  intros r. destruct (sanitize_text_shape s) as [H1 [H2 [H3 H4]]].
  split; [exact H1|split; [exact H2|split; [exact H3|split; [exact H4|]]]].
  pose proof (filter_nonspace_sanitize s) as Hf. split.
  - intros E. unfold r in E. rewrite E in Hf. simpl in Hf.
    symmetry in Hf. apply filter_nil_forall in Hf.
    eapply List.Forall_impl; [|exact Hf]. intros c Hc. apply negb_false_iff. exact Hc.
  - intros Hall. destruct r as [|c l] eqn:Er; [reflexivity|].
    exfalso. unfold r in Er.
    assert (Hn : List.filter (fun c => negb (py_isspace c)) s = []).
    { apply filter_nil_forall. eapply List.Forall_impl; [|exact Hall].
      intros x Hx. rewrite Hx. reflexivity. }
    rewrite Hn, Er in Hf. simpl in Hf. rewrite (H3 c l Er) in Hf. discriminate.
Qed.

(** X2: Sanitizing a sanitized text changes nothing. *)
Theorem sanitize_text_idempotent (s : pystr) :
  sanitize_text (sanitize_text s) = sanitize_text s.
Proof.
  destruct (sanitize_text_shape s) as [H1 [H2 [H3 H4]]].
  destruct (sanitize_text s) as [|x r] eqn:E; [reflexivity|].
  change (sanitize_text (x :: r)) with (strip (sub_ws false (x :: r))).
  rewrite (sub_ws_id false (x :: r) H1 H2 ltac:(discriminate)).
  unfold strip. rewrite (lstrip_id (x :: r) H3).
  rewrite (lstrip_id (rev (x :: r))); [apply rev_involutive|].
  intros c l El. apply (H4 (rev l)). rewrite <- (rev_involutive (x :: r)), El. reflexivity.
Qed.

(** X3: sanitize_text removes and rewrites only whitespace: the non-whitespace
    code points of the result are those of the input, in the same order. *)
Theorem sanitize_text_keeps_text (s : pystr) :
  List.filter (fun c => negb (py_isspace c)) (sanitize_text s) =
  List.filter (fun c => negb (py_isspace c)) s.
Proof. apply filter_nonspace_sanitize. Qed.

(** ** News feeds *)

Lemma string_app_nil (s : string) : (s ++ "")%string = s.
Proof.
  induction s as [|c s IH]; [reflexivity|].
  change (String c (s ++ "")%string = String c s). rewrite IH. reflexivity.
Qed.

Lemma append_entries_items (now : string) (articles : list news_item) (es : list feed_entry) :
  append_entries now articles es = (articles ++ items_until_incomplete now es)%list.
Proof.
  revert articles. induction es as [|e r IH]; intros articles; simpl.
  - rewrite app_nil_r. reflexivity.
  - destruct (entry_title e), (entry_link e); try (rewrite app_nil_r; reflexivity).
    rewrite IH, <- app_assoc. reflexivity.
Qed.

Lemma items_until_incomplete_length (now : string) (es : list feed_entry) :
  length (items_until_incomplete now es) <= length es.
Proof.
  induction es as [|e r IH]; simpl; [lia|].
  destruct (entry_title e), (entry_link e); simpl; lia.
Qed.

Lemma py_slice_to_length_nonneg {A} (xs : list A) (k : Z) :
  (0 <= k)%Z -> length (py_slice_to xs k) <= Z.to_nat k.
Proof.
  intros Hk. unfold py_slice_to. destruct (Z.ltb_spec k 0); [lia|].
  rewrite length_take. lia.
Qed.

Lemma py_slice_to_id {A} (xs : list A) (k : Z) :
  (0 <= k)%Z -> length xs <= Z.to_nat k -> py_slice_to xs k = xs.
Proof.
  intros Hk Hl. unfold py_slice_to. destruct (Z.ltb_spec k 0); [lia|].
  apply take_ge. exact Hl.
Qed.

Lemma fetch_news_feeds_split (parse : string -> option (list feed_entry)) (now q : string) (n : Z) :
  fetch_news_feeds parse now q n =
    (source_items parse now q n "https://news.google.com/rss/search?q={query}" ++
     source_items parse now q n "https://www.bing.com/news/search?q={query}&format=rss")%list.
Proof.
  unfold fetch_news_feeds, NEWS_SOURCES, source_items. cbn [fetch_sources].
  destruct (parse (format_query "https://news.google.com/rss/search?q={query}" (quote q)));
  destruct (parse (format_query "https://www.bing.com/news/search?q={query}&format=rss" (quote q)));
    rewrite ?append_entries_items; simpl; rewrite ?app_nil_r; reflexivity.
Qed.

Lemma source_items_length (parse : string -> option (list feed_entry)) (now q : string)
    (n : Z) (tmpl : string) :
  (0 <= n)%Z -> length (source_items parse now q n tmpl) <= Z.to_nat (Z.div n 2).
Proof.
  intros Hn. unfold source_items. destruct (parse _) as [es|]; simpl; [|lia].
  etransitivity; [apply items_until_incomplete_length|].
  apply py_slice_to_length_nonneg. apply Z.div_pos; lia.
Qed.

(** X4: For a non-negative [num_articles], fetch_news_feeds returns at most
    [num_articles] articles (each of the two sources contributes at most
    [num_articles // 2]), so the slice [articles[:num_articles]] of
    search_news_articles never drops an article. *)
Theorem search_news_articles_no_truncation (parse : string -> option (list feed_entry))
    (now company_name : string) (num_articles : Z) (Hn : (0 <= num_articles)%Z) :
  length (fetch_news_feeds parse now company_name num_articles) <= Z.to_nat num_articles /\
  search_news_articles parse now company_name num_articles =
    fetch_news_feeds parse now company_name num_articles.
Proof.
  assert (Hlen : length (fetch_news_feeds parse now company_name num_articles)
                 <= Z.to_nat num_articles).
  { rewrite fetch_news_feeds_split, length_app.
    pose proof (source_items_length parse now company_name num_articles
                  "https://news.google.com/rss/search?q={query}" Hn) as H1.
    pose proof (source_items_length parse now company_name num_articles
                  "https://www.bing.com/news/search?q={query}&format=rss" Hn) as H2.
    pose proof (Z.mul_div_le num_articles 2 ltac:(lia)) as H3.
    pose proof (Z.div_pos num_articles 2 Hn ltac:(lia)) as H4.
    lia. }
  split; [exact Hlen|]. unfold search_news_articles. apply py_slice_to_id; assumption.
Qed.

(** X5: fetch_news_feeds returns the articles of the Google News feed, then
    those of the Bing News feed. A feed that raises contributes nothing
    without stopping the other, and a feed contributes its first
    [num_results // 2] entries up to the first one without [title] or
    [link]; the entries before that one are kept. *)
Theorem fetch_news_feeds_per_source (parse : string -> option (list feed_entry))
    (now query : string) (num_results : Z) :
  fetch_news_feeds parse now query num_results =
    (source_items parse now query num_results "https://news.google.com/rss/search?q={query}" ++
     source_items parse now query num_results
       "https://www.bing.com/news/search?q={query}&format=rss")%list.
Proof. apply fetch_news_feeds_split. Qed.

Lemma hex_digit_code (n : nat) :
  n < 16 -> Ascii.nat_of_ascii (hex_digit n) = if Nat.ltb n 10 then 48 + n else 55 + n.
Proof.
  intros Hn. unfold hex_digit. apply Ascii.nat_ascii_embedding.
  destruct (Nat.ltb_spec n 10); lia.
Qed.

Lemma hex_digit_safe (n : nat) : n < 16 -> quote_safe (hex_digit n) = true.
Proof.
  intros Hn. unfold quote_safe. rewrite (hex_digit_code n Hn).
  destruct (Nat.ltb_spec n 10).
  - assert (E : Nat.leb 48 (48 + n) && Nat.leb (48 + n) 57 = true)
      by (apply andb_true_intro; split; apply Nat.leb_le; lia).
    rewrite E. rewrite !orb_true_r. reflexivity.
  - assert (E : Nat.leb 65 (55 + n) && Nat.leb (55 + n) 90 = true)
      by (apply andb_true_intro; split; apply Nat.leb_le; lia).
    rewrite E. reflexivity.
Qed.

Lemma hex_digit_inj (a b : nat) : a < 16 -> b < 16 -> hex_digit a = hex_digit b -> a = b.
Proof.
  intros Ha Hb E. apply (f_equal Ascii.nat_of_ascii) in E.
  rewrite (hex_digit_code a Ha), (hex_digit_code b Hb) in E.
  destruct (Nat.ltb_spec a 10), (Nat.ltb_spec b 10); lia.
Qed.

Lemma byte_div16 (c : Ascii.ascii) : Ascii.nat_of_ascii c / 16 < 16.
Proof. pose proof (Ascii.nat_ascii_bounded c). apply Nat.Div0.div_lt_upper_bound. lia. Qed.

Lemma byte_mod16 (c : Ascii.ascii) : Ascii.nat_of_ascii c mod 16 < 16.
Proof. apply Nat.mod_upper_bound. lia. Qed.

Lemma quote_bytes (s : string) (c : Ascii.ascii) :
  In c (list_ascii_of_string (quote s)) -> quote_safe c = true \/ c = "%"%char.
Proof.
  induction s as [|x r IH]; simpl; [tauto|].
  destruct (quote_safe x) eqn:Ex; simpl.
  - intros [<-|H]; [left; exact Ex|exact (IH H)].
  - intros [<-|[<-|[<-|H]]]; [right; reflexivity| | |exact (IH H)]; left.
    + apply hex_digit_safe, byte_div16.
    + apply hex_digit_safe, byte_mod16.
Qed.

Lemma quote_inj (s t : string) : quote s = quote t -> s = t.
Proof.
  revert t. induction s as [|x r IH]; intros t; destruct t as [|y u]; cbn [quote].
  - reflexivity.
  - destruct (quote_safe y); discriminate.
  - destruct (quote_safe x); discriminate.
  - destruct (quote_safe x) eqn:Ex, (quote_safe y) eqn:Ey.
    + intros [= -> E]. f_equal. apply IH. exact E.
    + intros [= -> _]. discriminate.
    + intros [= <- _]. discriminate.
    + intros [= E1 E2 E]. f_equal; [|apply IH; exact E].
      apply hex_digit_inj in E1; [|apply byte_div16|apply byte_div16].
      apply hex_digit_inj in E2; [|apply byte_mod16|apply byte_mod16].
      rewrite <- (Ascii.ascii_nat_embedding x), <- (Ascii.ascii_nat_embedding y). f_equal.
      rewrite (Nat.div_mod (Ascii.nat_of_ascii x) 16), (Nat.div_mod (Ascii.nat_of_ascii y) 16)
        by lia.
      assert (E1' : Ascii.nat_of_ascii x / 16 = Ascii.nat_of_ascii y / 16) by exact E1.
      assert (E2' : Ascii.nat_of_ascii x mod 16 = Ascii.nat_of_ascii y mod 16) by exact E2.
      rewrite E1', E2'. reflexivity.
Qed.

(** X6: The feed URL of each source is its template with the company name,
    percent-encoded by quote, in place of [{query}]. The encoded name holds
    only ASCII letters, digits, ['_.-~/'] and ['%'], so it cannot end the
    [q] parameter or add one (no ['&'], ['#'], ['='], ['?'] or space), and
    two different names never give the same URL. *)
Theorem feed_urls_quoted (query : string) :
  format_query "https://news.google.com/rss/search?q={query}" (quote query) =
    ("https://news.google.com/rss/search?q=" ++ quote query)%string /\
  format_query "https://www.bing.com/news/search?q={query}&format=rss" (quote query) =
    ("https://www.bing.com/news/search?q=" ++ quote query ++ "&format=rss")%string /\
  (forall c, In c (list_ascii_of_string (quote query)) -> quote_safe c = true \/ c = "%"%char) /\
  (forall query', quote query = quote query' -> query = query').
Proof.
  split; [|split; [|split]].
  - simpl. rewrite string_app_nil. reflexivity.
  - reflexivity.
  - apply quote_bytes.
  - apply quote_inj.
Qed.

(** ** Summarization *)

Lemma text_chunks_eq (t : pystr) :
  text_chunks t =
    map (fun j => take 1024 (drop (j * 1024) t)) (seq 0 ((length t + 1023) / 1024)).
Proof.
  unfold text_chunks, py_range_step. rewrite List.map_map.
  replace (length t - 0 + 1024 - 1) with (length t + 1023) by lia.
  apply List.map_ext. intros j. unfold py_slice. rewrite !Nat.add_0_l.
  f_equal. lia.
Qed.

Lemma concat_chunks_from (t : pystr) (m k : nat) :
  concat (map (fun j => take 1024 (drop (j * 1024) t)) (seq k m)) =
    take (m * 1024) (drop (k * 1024) t).
Proof.
  revert k. induction m as [|m IH]; intros k; [reflexivity|].
  cbn [seq map concat]. rewrite IH.
  replace (S k * 1024) with (k * 1024 + 1024) by lia.
  rewrite <- drop_drop, take_take_drop. f_equal; lia.
Qed.

Lemma ceil_div_bound (L : nat) : L <= (L + 1023) / 1024 * 1024.
Proof.
  pose proof (Nat.div_mod (L + 1023) 1024 ltac:(lia)).
  pose proof (Nat.mod_upper_bound (L + 1023) 1024 ltac:(lia)). lia.
Qed.

Lemma ceil_div_below (L j : nat) : j < (L + 1023) / 1024 -> j * 1024 < L.
Proof.
  intros Hj.
  pose proof (Nat.div_mod (L + 1023) 1024 ltac:(lia)).
  pose proof (Nat.mod_upper_bound (L + 1023) 1024 ltac:(lia)).
  assert (S j * 1024 <= (L + 1023) / 1024 * 1024) by (apply Nat.mul_le_mono_r; lia).
  lia.
Qed.

Lemma take3_text_chunks (t : pystr) :
  take 3 (text_chunks t) =
    map (fun j => take 1024 (drop (j * 1024) t)) (seq 0 (Nat.min 3 ((length t + 1023) / 1024))).
Proof. rewrite text_chunks_eq, firstn_map, take_seq. reflexivity. Qed.

Lemma take3_chunks_prefix (t : pystr) :
  take 3 (text_chunks t) = take 3 (text_chunks (take 3072 t)).
Proof.
  rewrite !take3_text_chunks, length_take.
  replace (Nat.min 3 ((Nat.min 3072 (length t) + 1023) / 1024))
    with (Nat.min 3 ((length t + 1023) / 1024)).
  - apply List.map_ext_in. intros j Hj. apply List.in_seq in Hj.
    rewrite !take_drop_commute, take_take. f_equal. f_equal. lia.
  - destruct (Nat.le_ge_cases (length t) 3072) as [Hl|Hl].
    + rewrite (Nat.min_r 3072 (length t)) by exact Hl. reflexivity.
    + rewrite (Nat.min_l 3072 (length t)) by exact Hl.
      assert (E : (3072 + 1023) / 1024 = 3) by reflexivity.
      rewrite E.
      assert (3 <= (length t + 1023) / 1024).
      { rewrite <- E. apply Nat.Div0.div_le_mono; lia. }
      lia.
Qed.

(** X7: The chunks of a text cut it into consecutive pieces of at most 1024
    code points, none empty, ceil(len/1024) of them; the first three cover
    exactly its first 3072 code points. *)
Theorem text_chunks_partition (text : pystr) :
  concat (text_chunks text) = text /\
  Forall (fun c => 1 <= length c <= 1024) (text_chunks text) /\
  length (text_chunks text) = (length text + 1023) / 1024 /\
  concat (take 3 (text_chunks text)) = take 3072 text.
Proof.
  split; [|split; [|split]].
  - rewrite text_chunks_eq, concat_chunks_from, drop_0.
    apply take_ge. apply ceil_div_bound.
  - rewrite text_chunks_eq. apply List.Forall_forall. intros c Hc.
    apply List.in_map_iff in Hc as [j [<- Hj]]. apply List.in_seq in Hj.
    pose proof (ceil_div_below (length text) j ltac:(lia)).
    rewrite length_take, length_drop. lia.
  - rewrite text_chunks_eq, List.length_map, List.length_seq. reflexivity.
  - rewrite take3_text_chunks, concat_chunks_from, drop_0.
    pose proof (ceil_div_bound (length text)).
    destruct (Nat.le_ge_cases 3 ((length text + 1023) / 1024)) as [H3|H3].
    + rewrite Nat.min_l by exact H3. reflexivity.
    + rewrite Nat.min_r by exact H3.
      rewrite !take_ge by lia. reflexivity.
Qed.

(** X8: For a text longer than 1024 code points whose model summary succeeds,
    the summary depends only on the first 3072 code points: the function
    summarizes at most the first three chunks, and two such texts with the
    same first 3072 code points get the same summary. *)
Theorem summarize_text_first_3072 (load_summarizer : option (pystr -> Z -> Z -> option pystr))
    (sent_tokenize : pystr -> option (list pystr)) (t1 t2 : pystr) (max_length : Z)
    (H1 : 1024 < length t1) (H2 : 1024 < length t2) (Hp : take 3072 t1 = take 3072 t2)
    (Hok : summarize_body load_summarizer t1 max_length <> None) :
  summarize_text load_summarizer sent_tokenize t1 max_length =
    summarize_text load_summarizer sent_tokenize t2 max_length.
Proof.
  assert (Eb : summarize_body load_summarizer t1 max_length =
               summarize_body load_summarizer t2 max_length).
  { unfold summarize_body. destruct load_summarizer as [summ|]; [|reflexivity].
    cbn [mbind option_bind].
    rewrite (proj2 (Nat.ltb_lt _ _) H1), (proj2 (Nat.ltb_lt _ _) H2). cbv zeta.
    rewrite (take3_chunks_prefix t1), (take3_chunks_prefix t2), Hp. reflexivity. }
  unfold summarize_text.
  rewrite (proj2 (Nat.ltb_ge _ _)) by lia. rewrite (proj2 (Nat.ltb_ge (length t2) 100)) by lia.
  rewrite <- Eb. destruct (summarize_body load_summarizer t1 max_length); [reflexivity|].
  contradiction.
Qed.

(** ** Sentiment *)

Lemma analyze_body_label {F} (fadd fmul : F -> F -> F) (fneg : F -> F) (fgt : F -> F -> bool)
    (f0_0 f0_4 f0_6 f0_1 f0_05 : F) (vader_compound : pystr -> option F)
    (classify : pystr -> option (string * F)) (text : pystr) (r : sentiment_result F) :
  analyze_body fadd fmul fneg fgt f0_4 f0_6 f0_1 vader_compound classify text = Some r ->
  In (s_label r) ["Positive"; "Negative"; "Neutral"].
Proof.
  unfold analyze_body. cbn [mbind option_bind].
  destruct (vader_compound text) as [c|]; [|discriminate].
  destruct (classify (take 512 text)) as [[l s]|]; [|discriminate].
  intros [= <-]. cbn [s_label].
  repeat match goal with |- context [if ?b then _ else _] => destruct b end; simpl; tauto.
Qed.

Lemma vader_only_label {F} (fneg : F -> F) (fgt : F -> F -> bool) (f0_0 f0_05 : F)
    (vader_compound : pystr -> option F) (text : pystr) :
  In (s_label (vader_only fneg fgt f0_0 f0_05 vader_compound text))
     ["Positive"; "Negative"; "Neutral"].
Proof.
  unfold vader_only. destruct (vader_compound text) as [c|]; [|simpl; tauto].
  repeat match goal with |- context [if ?b then _ else _] => destruct b end; simpl; tauto.
Qed.

Lemma analyze_sentiment_label_in {F} (fadd fmul : F -> F -> F) (fneg : F -> F)
    (fgt : F -> F -> bool) (f0_0 f0_4 f0_6 f0_1 f0_05 : F)
    (vader_compound : pystr -> option F) (classify : pystr -> option (string * F))
    (text : pystr) :
  In (s_label (analyze_sentiment fadd fmul fneg fgt f0_0 f0_4 f0_6 f0_1 f0_05
                                 vader_compound classify text))
     ["Positive"; "Negative"; "Neutral"].
Proof.
  unfold analyze_sentiment. destruct text as [|c text]; [simpl; tauto|].
  destruct (analyze_body _ _ _ _ _ _ _ _ _ (c :: text)) as [r|] eqn:E.
  - exact (analyze_body_label _ _ _ _ f0_0 _ _ _ f0_05 _ _ _ _ E).
  - apply vader_only_label.
Qed.

(** X9: Whatever the models return or raise, the label of analyze_sentiment
    is one of Positive, Negative and Neutral; an empty text gets Neutral
    with score 0.0 and neither model score. *)
Theorem analyze_sentiment_labels {F} (fadd fmul : F -> F -> F) (fneg : F -> F)
    (fgt : F -> F -> bool) (f0_0 f0_4 f0_6 f0_1 f0_05 : F)
    (vader_compound : pystr -> option F) (classify : pystr -> option (string * F))
    (text : pystr) :
  In (s_label (analyze_sentiment fadd fmul fneg fgt f0_0 f0_4 f0_6 f0_1 f0_05
                                 vader_compound classify text))
     ["Positive"; "Negative"; "Neutral"] /\
  (text = [] ->
   analyze_sentiment fadd fmul fneg fgt f0_0 f0_4 f0_6 f0_1 f0_05 vader_compound classify text =
     mkSentiment "Neutral" f0_0 None None).
Proof.
  split; [apply analyze_sentiment_label_in|intros ->; reflexivity].
Qed.

(** ** Topics *)

Lemma NoDup_take_l {A} (n : nat) (l : list A) : NoDup l -> NoDup (take n l).
Proof.
  intros H. rewrite <- (List.firstn_skipn n l) in H. apply NoDup_app in H. tauto.
Qed.

Lemma in_insert_desc (x y : string * Q) (l : list (string * Q)) :
  In x (insert_desc y l) -> x = y \/ In x l.
Proof.
  induction l as [|z l IH]; cbn [insert_desc].
  - intros [<-|[]]. left. reflexivity.
  - destruct (Qgtb y.2 z.2).
    + intros [<-|H]; [left; reflexivity|right; exact H].
    + intros [<-|H]; [right; left; reflexivity|].
      destruct (IH H) as [E|E]; [left; exact E|right; right; exact E].
Qed.

Lemma in_sort_desc (x : string * Q) (l : list (string * Q)) :
  In x (sort_desc l) -> In x l.
Proof.
  unfold sort_desc.
  assert (G : forall acc, In x (foldl (fun acc y => insert_desc y acc) acc l) ->
                          In x acc \/ In x l).
  { induction l as [|y l IH]; intros acc; simpl; [tauto|].
    intros H. destruct (IH _ H) as [H'|H']; [|tauto].
    destruct (in_insert_desc _ _ _ H'); subst; tauto. }
  intros H. destruct (G [] H) as [[]|H']. exact H'.
Qed.

Lemma in_dict_set (x : string * Q) (k : string) (v : Q) (d : list (string * Q)) :
  In x (dict_set k v d) -> x = (k, v) \/ In x d.
Proof.
  induction d as [|[k' v'] d IH]; cbn [dict_set].
  - intros [<-|[]]. left. reflexivity.
  - destruct (String.eqb k k').
    + intros [<-|H]; [left; reflexivity|right; right; exact H].
    + intros [<-|H]; [right; left; reflexivity|].
      destruct (IH H) as [E|E]; [left; exact E|right; right; exact E].
Qed.

Lemma in_dict_of_pairs (x : string * Q) (pairs : list (string * Q)) :
  In x (dict_of_pairs pairs) -> In x pairs.
Proof.
  unfold dict_of_pairs.
  assert (G : forall acc, In x (foldl (fun d kv => dict_set kv.1 kv.2 d) acc pairs) ->
                          In x acc \/ In x pairs).
  { induction pairs as [|[k v] pairs IH]; intros acc; simpl; [tauto|].
    intros H. destruct (IH _ H) as [H'|H']; [|tauto].
    destruct (in_dict_set _ _ _ _ H'); subst; tauto. }
  intros H. destruct (G [] H) as [[]|H']. exact H'.
Qed.

(** X10: On a text of at least 100 code points, extract_topics gives
    ["Topic extraction failed"] when the entity recognizer or the stopword
    loading raises. Otherwise it gives at most num_topics topics, none
    twice, each of them the text of an entity whose label is one of
    ENTITY_LABELS or a feature of the TF-IDF vectorizer. *)
Theorem extract_topics_shape (it : list string -> list string)
    (ner : pystr -> option (list (string * string))) (stopwords_english : option unit)
    (tfidf : pystr -> option (list (string * Q))) (text : pystr) (num_topics : Z)
    (Hit : set_iter_ok it) (Hlen : 100 <= length text) (Hk : (0 <= num_topics)%Z) :
  let r := extract_topics it ner stopwords_english tfidf text num_topics in
  match ner (take 5000 text), stopwords_english with
  | Some ents, Some _ =>
      NoDup r /\ length r <= Z.to_nat num_topics /\
      forall t, In t r ->
        (exists l, In (t, l) ents /\ In l ENTITY_LABELS) \/
        (exists pairs s, tfidf text = Some pairs /\ In (t, s) pairs)
  | _, _ => r = ["Topic extraction failed"]
  end.
Proof.
  cbv zeta. unfold extract_topics. rewrite (proj2 (Nat.ltb_ge _ _) Hlen).
  unfold topics_body. destruct (ner (take 5000 text)) as [ents|]; [|reflexivity].
  destruct stopwords_english as [[]|]; [|reflexivity].
  cbn [mbind option_bind mret option_ret]. cbv zeta.
  match goal with |- context [it (py_set ?l)] => set (s := py_set l) end.
  assert (Hs : NoDup s) by apply NoDup_py_set.
  split; [|split].
  - unfold py_slice_to. apply NoDup_take_l. rewrite (Hit s Hs). exact Hs.
  - apply py_slice_to_length_nonneg. exact Hk.
  - intros t Ht. unfold py_slice_to in Ht. apply in_take_l in Ht.
    apply (in_set_iter it s t Hit Hs) in Ht. apply (proj1 (in_py_set t _)) in Ht.
    apply in_app_or in Ht as [Ht|Ht].
    + left. apply List.in_map_iff in Ht as [[t' l] [<- He]].
      apply List.filter_In in He as [He Hl]. exists l. split; [exact He|].
      apply bool_decide_eq_true in Hl. apply list_elem_of_In. exact Hl.
    + right. unfold keywords_of in Ht. destruct (tfidf text) as [pairs|]; [|destruct Ht].
      apply List.in_map_iff in Ht as [[t' sc] [<- Hkv]].
      unfold py_slice_to in Hkv. apply in_take_l, in_sort_desc, in_dict_of_pairs in Hkv.
      exists pairs, sc. split; [reflexivity|exact Hkv].
Qed.

(** ** Comparison and final text *)

Lemma string_length_app (s1 s2 : string) :
  String.length (s1 ++ s2) = String.length s1 + String.length s2.
Proof.
  induction s1 as [|c s1 IH]; [reflexivity|].
  change (S (String.length (s1 ++ s2)) = S (String.length s1 + String.length s2)).
  rewrite IH. reflexivity.
Qed.

Lemma final_text_dist_cases (company : string) (p n u : Z) :
  (generate_final_sentiment_text company (dist3 p n u) = no_data_text company /\
   (p + n + u)%Z = 0%Z) \/
  (exists X, generate_final_sentiment_text company (dist3 p n u) = (company ++ X)%string /\
             53 <= String.length X /\ (p + n + u)%Z <> 0%Z).
Proof.
  cbv [generate_final_sentiment_text final_text_body mbind result_bind mret result_ret
       dist_entries dist3 dist_sum foldl try_except].
  cbn [fst snd].
  destruct (Z.eqb_spec (0 + p + n + u) 0) as [E|E].
  - left. split; [reflexivity|lia].
  - right.
    repeat match goal with |- context [if bool_decide ?P then _ else _] =>
             destruct (bool_decide P) end;
      (eexists; split; [reflexivity|split; [apply Nat.leb_le; reflexivity|lia]]).
Qed.

Lemma final_text_dist (company : string) (p n u : Z) :
  generate_final_sentiment_text company (dist3 p n u) <> inconclusive company /\
  (generate_final_sentiment_text company (dist3 p n u) = no_data_text company <->
   (p + n + u)%Z = 0%Z).
Proof.
  destruct (final_text_dist_cases company p n u) as [[E H0]|[X [E [HX H0]]]]; rewrite E.
  - split; [|split; intros; [exact H0|reflexivity]].
    intros C. apply (f_equal String.length) in C.
    unfold no_data_text, inconclusive in C. rewrite !string_length_app in C.
    simpl in C. lia.
  - split; [|split; [|intros; contradiction]].
    + intros C. apply (f_equal String.length) in C.
      unfold inconclusive in C. rewrite !string_length_app in C. simpl in C. lia.
    + intros C. apply (f_equal String.length) in C.
      unfold no_data_text in C. rewrite !string_length_app in C. simpl in C. lia.
Qed.

(** X11: The final text of a comparison, as the analysis endpoint builds it, is
    never the inconclusive text: the comparison always carries a
    distribution of integers. It is the no-data text exactly when the
    distribution counts no record. *)
Theorem final_text_of_comparison (it : list string -> list string) (arts : list article)
    (company : string) :
  let d := Sentiment_Distribution (compare_articles it arts) in
  let final := generate_final_sentiment_text company (analysis_of (compare_articles it arts)) in
  final <> inconclusive company /\
  (final = no_data_text company <-> Positive d + Negative d + Neutral d = 0).
Proof.
  cbv zeta.
  set (d := Sentiment_Distribution (compare_articles it arts)).
  destruct (final_text_dist company (Z.of_nat (Positive d)) (Z.of_nat (Negative d))
                                    (Z.of_nat (Neutral d))) as [A B].
  split; [exact A|].
  split; intros H.
  - apply B in H. lia.
  - apply B. lia.
Qed.

Lemma topic_sets_nonempty (arts : list article) :
  topic_bearing arts <> [] -> topic_sets arts <> [].
Proof. intros H E. unfold topic_sets in E. apply List.map_eq_nil in E. contradiction. Qed.

Lemma in_topic_sets (arts : list article) (t : string) :
  (forall s, In s (topic_sets arts) -> In t s) <->
  (forall a, In a (topic_bearing arts) -> In t (topics_of a)).
Proof.
  split.
  - intros H a Ha. apply (proj1 (in_py_set t _)). apply H.
    unfold topic_sets. apply (List.in_map (fun a => py_set (topics_of a))). exact Ha.
  - intros H s Hs. unfold topic_sets in Hs. apply List.in_map_iff in Hs as [a [<- Ha]].
    apply (proj2 (in_py_set t _)). apply H. exact Ha.
Qed.

(** X12: When some topic is shared by every record that has topics (and there
    is such a record), the common topics of a batch of well-formed records
    are exactly the topics found in every record that has topics, each
    listed once. *)
Theorem compare_articles_common_intersection (it : list string -> list string)
    (arts : list article) (Hit : set_iter_ok it) (Hwf : wf_batch arts = true)
    (Hbear : topic_bearing arts <> [])
    (Hshared : exists t, forall a, In a (topic_bearing arts) -> In t (topics_of a)) :
  let common := Common_Topics (Topic_Overlap (compare_articles it arts)) in
  NoDup common /\
  (forall t, In t common <-> forall a, In a (topic_bearing arts) -> In t (topics_of a)).
Proof.
  cbv zeta.
  rewrite (compare_articles_ok it arts Hwf (topic_bearing_nonempty _ Hbear)).
  unfold compare_spec. cbn [Topic_Overlap Common_Topics].
  pose proof (topic_sets_nonempty _ Hbear) as Hsets.
  assert (Hi : intersection_all (topic_sets arts) <> []).
  { destruct Hshared as [t Ht]. intros E.
    assert (Hin : In t (intersection_all (topic_sets arts))).
    { apply (in_intersection_all _ t Hsets). apply in_topic_sets. exact Ht. }
    rewrite E in Hin. destruct Hin. }
  assert (Ec : common_topics_of it (topic_sets arts) = intersection_all (topic_sets arts)).
  { unfold common_topics_of. cbv zeta.
    destruct (intersection_all (topic_sets arts)); [contradiction|reflexivity]. }
  pose proof (NoDup_common_topics_of it _ (Forall_NoDup_topic_sets arts)) as Hnd.
  rewrite Ec in Hnd |- *.
  split; [rewrite (Hit _ Hnd); exact Hnd|].
  intros t. rewrite (in_set_iter it _ t Hit Hnd), (in_intersection_all _ t Hsets).
  apply in_topic_sets.
Qed.

(** X13: Every common topic of a batch of well-formed records appears in at
    least two of the records that have topics (in all of them when fewer
    than two have topics), and no common topic is listed twice. *)
Theorem compare_articles_common_frequency (it : list string -> list string)
    (arts : list article) (Hit : set_iter_ok it) (Hwf : wf_batch arts = true) :
  let common := Common_Topics (Topic_Overlap (compare_articles it arts)) in
  NoDup common /\
  (forall t, In t common -> Nat.min 2 (length (topic_bearing arts)) <= topic_freq t arts).
Proof.
  cbv zeta.
  destruct arts as [|a0 arts0] eqn:Ea.
  { split; [constructor|intros t []]. }
  rewrite <- Ea in *.
  rewrite (compare_articles_ok it arts Hwf) by (rewrite Ea; discriminate).
  unfold compare_spec. cbn [Topic_Overlap Common_Topics].
  pose proof (NoDup_common_topics_of it _ (Forall_NoDup_topic_sets arts)) as Hnd.
  split; [rewrite (Hit _ Hnd); exact Hnd|].
  intros t Ht. apply (in_set_iter it _ t Hit Hnd) in Ht.
  rewrite <- freq_sets_topic_sets.
  assert (Hlen : length (topic_sets arts) = length (topic_bearing arts))
    by (unfold topic_sets; apply List.length_map).
  rewrite <- Hlen.
  pose proof (Forall_NoDup_topic_sets arts) as Hfs.
  unfold common_topics_of in Ht. cbv zeta in Ht.
  destruct (intersection_all (topic_sets arts)) as [|x xs] eqn:Ei.
  - destruct (topic_sets arts) as [|s ss] eqn:Es; [destruct Ht|].
    apply (in_fallback_common it _ t Hit Hfs) in Ht.
    unfold spec_threshold in Ht. lia.
  - assert (Hsets : topic_sets arts <> []).
    { intros E. rewrite E in Ei. discriminate. }
    rewrite <- Ei in Ht. pose proof (proj1 (in_intersection_all _ t Hsets) Ht) as Hall.
    enough (freq_sets t (topic_sets arts) = length (topic_sets arts)) by lia.
    apply (proj2 (proj2 (filter_length_eq_iff _ _))).
    apply List.Forall_forall. intros s Hs.
    apply bool_decide_eq_true. apply list_elem_of_In. apply Hall. exact Hs.
Qed.

Lemma collect_topic_sets_none (arts : list article) :
  topic_bearing arts = [] -> collect_topic_sets arts = Ok [].
Proof.
  induction arts as [|a r IH]; [reflexivity|].
  unfold topic_bearing. cbn [List.filter collect_topic_sets].
  destruct (has_topics a); [discriminate|]. exact IH.
Qed.

(** X14: When no record of the batch has a topics key, the topic overlap is
    empty: no common topics and no unique-topic lists, whatever the other
    fields hold. *)
Theorem compare_articles_no_topics (it : list string -> list string) (arts : list article)
    (Hit : set_iter_ok it) (Hnone : topic_bearing arts = []) :
  Topic_Overlap (compare_articles it arts) = mkOverlap [] [].
Proof.
  assert (Hnil : it [] = []).
  { apply Permutation_nil. symmetry. apply Hit. constructor. }
  unfold compare_articles. destruct arts as [|a r] eqn:Ea; [reflexivity|].
  rewrite <- Ea in *. unfold compare_articles_body.
  rewrite (collect_topic_sets_none _ Hnone).
  destruct (count_label "Positive" arts); [|reflexivity].
  destruct (count_label "Negative" arts); [|reflexivity].
  destruct (count_label "Neutral" arts); [|reflexivity].
  cbn [mbind result_bind try_except].
  destruct (scan_i arts _); [|reflexivity]. cbn.
  rewrite Hnil. reflexivity.
Qed.

(** ** The analysis endpoint *)

Section ApiFacts.

Context {F : Type} (fadd fmul : F -> F -> F) (fneg : F -> F) (fgt : F -> F -> bool)
        (f0_0 f0_4 f0_6 f0_1 f0_05 : F)
        (vader_compound : pystr -> option F) (classify : pystr -> option (string * F))
        (load_summarizer : option (pystr -> Z -> Z -> option pystr))
        (sent_tokenize : pystr -> option (list pystr))
        (it : list string -> list string)
        (ner : pystr -> option (list (string * string)))
        (stopwords_english : option unit)
        (tfidf : pystr -> option (list (string * Q))).

Local Abbreviation analyze_one' :=
  (analyze_one fadd fmul fneg fgt f0_0 f0_4 f0_6 f0_1 f0_05 vader_compound classify
               load_summarizer sent_tokenize it ner stopwords_english tfidf).
Local Abbreviation analyze_articles' :=
  (analyze_articles fadd fmul fneg fgt f0_0 f0_4 f0_6 f0_1 f0_05 vader_compound classify
                    load_summarizer sent_tokenize it ner stopwords_english tfidf).

Lemma analyze_one_cases (a : api_article) (r : option article) :
  analyze_one' a = Some r ->
  (r = None /\
   match in_content a with Some c => Nat.leb 100 (length c) | None => false end = false) \/
  (exists t l ts, r = Some (mkArticle (Some t) (Some (SentDict (Some l))) (Some (TopicsList ts))) /\
                  In l ["Positive"; "Negative"; "Neutral"] /\
   match in_content a with Some c => Nat.leb 100 (length c) | None => false end = true).
Proof.
  unfold analyze_one. destruct (in_content a) as [c|].
  - destruct (Nat.ltb_spec (length c) 100) as [Hc|Hc].
    + intros [= <-]. left. split; [reflexivity|]. apply Nat.leb_gt. exact Hc.
    + cbn [mbind option_bind].
      destruct (summarize_text load_summarizer sent_tokenize c 150); [|discriminate].
      destruct (in_title a) as [t|]; [|discriminate].
      intros [= <-]. right. do 3 eexists. split; [reflexivity|]. split.
      * apply analyze_sentiment_label_in.
      * apply Nat.leb_le. exact Hc.
  - intros [= <-]. left. split; reflexivity.
Qed.

Lemma analyze_all (data : list api_article) (rs : list (option article)) :
  Forall2 (fun a r => analyze_one' a = Some r) data rs ->
  length (omap id rs) =
    length (List.filter (fun a => match in_content a with
                                  | Some c => Nat.leb 100 (length c) | None => false end) data) /\
  Forall (fun a => exists l, label_of a = Some l /\ In l ["Positive"; "Negative"; "Neutral"])
         (omap id rs) /\
  wf_batch (omap id rs) = true.
Proof.
  induction 1 as [|a r data rs Ha Hrest IH]; [split; [reflexivity|split; [constructor|reflexivity]]|].
  destruct IH as [IHl [IHf IHw]].
  destruct (analyze_one_cases a r Ha) as [[-> Hl]|[t [l [ts [-> [Hin Hl]]]]]];
    cbn [List.filter omap list_omap id]; rewrite Hl.
  - split; [exact IHl|split; [exact IHf|exact IHw]].
  - cbn [length]. split; [f_equal; exact IHl|split].
    + constructor; [|exact IHf]. exists l. split; [reflexivity|exact Hin].
    + exact IHw.
Qed.

Lemma dist_total_all (arts : list article) :
  wf_batch arts = true ->
  Forall (fun a => exists l, label_of a = Some l /\ In l ["Positive"; "Negative"; "Neutral"]) arts ->
  Positive (Sentiment_Distribution (compare_articles it arts)) +
  Negative (Sentiment_Distribution (compare_articles it arts)) +
  Neutral (Sentiment_Distribution (compare_articles it arts)) = length arts.
Proof.
  intros Hwf Hl. destruct arts as [|a0 arts0] eqn:Ea; [reflexivity|].
  rewrite <- Ea in *.
  rewrite (compare_articles_ok it arts Hwf) by (rewrite Ea; discriminate).
  unfold compare_spec. cbn [Sentiment_Distribution Positive Negative Neutral].
  rewrite filter_three_labels.
  apply (proj2 (proj2 (filter_length_eq_iff _ _))).
  eapply List.Forall_impl; [|exact Hl]. intros a [l [E Hin]]. rewrite E.
  destruct Hin as [<-|[<-|[<-|[]]]]; reflexivity.
Qed.

(** X15: When /api/analyze answers with results, there is one result per
    article whose content has at least 100 code points, each with a
    Positive, Negative or Neutral label; the sentiment distribution counts
    every result once; and the final text is never the inconclusive text,
    and is the no-data text exactly when there is no result. *)
Theorem analyze_articles_results (data : list api_article) (company : option string)
    (results : list article) (comp : comparative) (final : string)
    (Hr : analyze_articles' (Some data) company = Respond200 results comp final) :
  length results =
    length (List.filter (fun a => match in_content a with
                                  | Some c => Nat.leb 100 (length c) | None => false end) data) /\
  Forall (fun a => exists l, label_of a = Some l /\ In l ["Positive"; "Negative"; "Neutral"])
         results /\
  Positive (Sentiment_Distribution comp) + Negative (Sentiment_Distribution comp) +
    Neutral (Sentiment_Distribution comp) = length results /\
  final <> inconclusive (default "" company) /\
  (final = no_data_text (default "" company) <-> results = []).
Proof.
  unfold analyze_articles in Hr.
  destruct (mapM _ data) as [rs|] eqn:Em; [|discriminate].
  injection Hr as <- <- <-.
  apply mapM_Some in Em.
  destruct (analyze_all data rs Em) as [Hlen [Hlab Hwf]].
  pose proof (dist_total_all _ Hwf Hlab) as Htot.
  split; [exact Hlen|split; [exact Hlab|split; [exact Htot|]]].
  set (d := Sentiment_Distribution (compare_articles it (omap id rs))) in Htot.
  destruct (final_text_dist (default "" company) (Z.of_nat (Positive d)) (Z.of_nat (Negative d))
                            (Z.of_nat (Neutral d))) as [A B].
  split; [exact A|].
  split; intros H.
  - apply B in H. apply List.length_zero_iff_nil. lia.
  - apply B. rewrite H in Htot. cbn [length] in Htot. lia.
Qed.

(** X16: The endpoint raises (500) only when an article with enough content
    lacks its title, or when the sentence splitter of the summarizer's
    fallback raises: without either, a request with articles is answered
    with results. *)
Theorem analyze_articles_responds (data : list api_article) (company : option string)
    (Htitle : forall a c, In a data -> in_content a = Some c -> 100 <= length c ->
                          in_title a <> None)
    (Hsent : forall t, sent_tokenize t <> None) :
  exists results comp final,
    analyze_articles' (Some data) company = Respond200 results comp final.
Proof.
  assert (Hm : exists rs, mapM analyze_one' data = Some rs).
  { induction data as [|a data IH]; [exists []; reflexivity|].
    assert (Ha : exists r, analyze_one' a = Some r).
    { unfold analyze_one. destruct (in_content a) as [c|] eqn:Ec; [|eexists; reflexivity].
      destruct (Nat.ltb_spec (length c) 100) as [Hc|Hc]; [eexists; reflexivity|].
      cbn [mbind option_bind].
      destruct (summarize_text load_summarizer sent_tokenize c 150) eqn:Es.
      - destruct (in_title a) as [t|] eqn:Et; [eexists; reflexivity|].
        exfalso. exact (Htitle a c (or_introl eq_refl) Ec Hc Et).
      - exfalso. unfold summarize_text in Es.
        rewrite (proj2 (Nat.ltb_ge _ _) Hc) in Es.
        destruct (summarize_body load_summarizer c 150); [discriminate|].
        destruct (sent_tokenize c) eqn:Ets; [discriminate|].
        exact (Hsent c Ets). }
    destruct Ha as [r Hr].
    destruct IH as [rs Hrs].
    { intros a' c Ha'. apply Htitle. right. exact Ha'. }
    exists (r :: rs). cbn [mapM]. rewrite Hr, Hrs. reflexivity. }
  destruct Hm as [rs Hrs].
  unfold analyze_articles. rewrite Hrs. do 3 eexists. reflexivity.
Qed.

End ApiFacts.

(** ** Instances of the properties above on concrete inputs *)

Lemma search_news_articles_no_truncation_witness :
  let parse := fun _ : string =>
    Some [mkEntry (Some "Acme beats estimates") (Some "https://a.example/1") None;
          mkEntry (Some "Acme shares fall") (Some "https://a.example/2") (Some "Mon, 01 Jan 2024");
          mkEntry None (Some "https://a.example/3") None] in
  length (fetch_news_feeds parse "2024-01-01" "Acme" 5) <= Z.to_nat 5 /\
  search_news_articles parse "2024-01-01" "Acme" 5 = fetch_news_feeds parse "2024-01-01" "Acme" 5.
Proof.
  cbv zeta. apply search_news_articles_no_truncation. lia.
Defined.

Lemma summarize_text_first_3072_witness :
  let summ := Some (fun (c : pystr) (_ _ : Z) => Some (take 10 c)) in
  let t1 := repeat 1%N 4000 in
  let t2 := (repeat 1%N 3072 ++ repeat 2%N 1000)%list in
  summarize_text summ (fun t => Some [t]) t1 150 = summarize_text summ (fun t => Some [t]) t2 150.
Proof.
  cbv zeta. apply summarize_text_first_3072.
  - apply Nat.ltb_lt. vm_compute. reflexivity.
  - apply Nat.ltb_lt. vm_compute. reflexivity.
  - vm_compute. reflexivity.
  - vm_compute. intros H. discriminate H.
Defined.

Lemma extract_topics_shape_witness :
  let ner := fun _ : pystr => Some [("Acme", "ORG"); ("2024", "DATE")] in
  let tfidf := fun _ : pystr => Some [("acme", 1 # 2); ("shares", 1 # 3)]%Q in
  let r := extract_topics id ner (Some tt) tfidf (repeat 97%N 120) 5 in
  NoDup r /\ length r <= Z.to_nat 5 /\
  forall t, In t r ->
    (exists l, In (t, l) [("Acme", "ORG"); ("2024", "DATE")] /\ In l ENTITY_LABELS) \/
    (exists pairs s, tfidf (repeat 97%N 120) = Some pairs /\ In (t, s) pairs).
Proof.
  cbv zeta.
  exact (extract_topics_shape id (fun _ => Some [("Acme", "ORG"); ("2024", "DATE")]) (Some tt)
           (fun _ => Some [("acme", 1 # 2); ("shares", 1 # 3)]%Q) (repeat 97%N 120) 5 id_set_iter_ok
           ltac:(apply Nat.leb_le; vm_compute; reflexivity) ltac:(lia)).
Defined.

Lemma compare_articles_common_intersection_witness :
  NoDup (Common_Topics (Topic_Overlap (compare_articles id batch_two))) /\
  (forall t, In t (Common_Topics (Topic_Overlap (compare_articles id batch_two))) <->
             forall a, In a (topic_bearing batch_two) -> In t (topics_of a)).
Proof.
  apply (compare_articles_common_intersection id batch_two id_set_iter_ok eq_refl).
  - intros H. vm_compute in H. discriminate H.
  - exists "A". intros a Ha. vm_compute in Ha.
    destruct Ha as [<-|[<-|[]]]; vm_compute; auto.
Defined.

Lemma compare_articles_common_frequency_witness :
  NoDup (Common_Topics (Topic_Overlap (compare_articles id batch_fallback))) /\
  (forall t, In t (Common_Topics (Topic_Overlap (compare_articles id batch_fallback))) ->
             Nat.min 2 (length (topic_bearing batch_fallback)) <= topic_freq t batch_fallback).
Proof.
  exact (compare_articles_common_frequency id batch_fallback id_set_iter_ok eq_refl).
Defined.

Lemma compare_articles_no_topics_witness :
  Topic_Overlap (compare_articles id batch_mixed) = mkOverlap [] [].
Proof.
  apply (compare_articles_no_topics id batch_mixed id_set_iter_ok). vm_compute. reflexivity.
Defined.

Lemma analyze_articles_results_witness :
  let AA := analyze_articles Qplus Qmult Qopp Qgtb 0%Q (4 # 10)%Q (6 # 10)%Q (1 # 10)%Q
              (5 # 100)%Q (fun _ => Some (1 # 2)%Q) (fun _ => Some ("POSITIVE", (9 # 10)%Q))
              None (fun t => Some [t]) id (fun _ => Some [("Acme", "ORG")]) (Some tt)
              (fun _ => Some [("acme", 1 # 2)]%Q) in
  let data := [mkApiArticle (Some "Acme beats estimates") (Some (repeat 97%N 120));
               mkApiArticle None (Some [1%N; 2%N])] in
  let R := [mkArticle (Some "Acme beats estimates") (Some (SentDict (Some "Positive")))
                      (Some (TopicsList ["Acme"; "acme"]))] in
  let final := generate_final_sentiment_text "Acme" (analysis_of (compare_articles id R)) in
  AA (Some data) (Some "Acme") = Respond200 R (compare_articles id R) final /\
  length R = 1 /\ final <> inconclusive "Acme".
Proof.
  cbv zeta.
  match goal with |- ?A = ?B /\ _ => assert (Hr : A = B) by (vm_compute; reflexivity) end.
  destruct (analyze_articles_results _ _ _ _ _ _ _ _ _ _ _ _ _ _ _ _ _ _ _ _ _ _ Hr)
    as [H1 [_ [_ [H4 _]]]].
  split; [exact Hr|split; [exact H1|exact H4]].
Defined.

Lemma analyze_articles_responds_witness :
  exists results comp final,
    analyze_articles Qplus Qmult Qopp Qgtb 0%Q (4 # 10)%Q (6 # 10)%Q (1 # 10)%Q
      (5 # 100)%Q (fun _ => Some (1 # 2)%Q) (fun _ => Some ("POSITIVE", (9 # 10)%Q))
      None (fun t => Some [t]) id (fun _ => Some [("Acme", "ORG")]) (Some tt)
      (fun _ => Some [("acme", 1 # 2)]%Q)
      (Some [mkApiArticle (Some "Acme beats estimates") (Some (repeat 97%N 120));
             mkApiArticle None (Some [1%N; 2%N])])
      (Some "Acme") = Respond200 results comp final.
Proof.
  apply analyze_articles_responds.
  - intros a c Ha Hc Hl. destruct Ha as [<-|[<-|[]]].
    + discriminate.
    + simpl in Hc. injection Hc as <-. simpl in Hl. lia.
  - intros t. discriminate.
Defined.
